(** * imsg-read: the attributedBody decoder

    A shallow embedding of [decode_attributed_body] from [imsg-read.py]
    and the properties of it that the design document states.

    Python values are modelled as follows:
    - [bytes] is a list of [Byte.byte];
    - [str] is a list of Unicode code points ([N]);
    - an integer index is a [Z], with Python's rules for negative and
      out-of-range slice bounds;
    - an operation that can raise returns a [result];
    - the interpreter state a call can see (module globals and the module
      cache touched by a function-local [import]) is threaded explicitly. *)

From Stdlib Require Import List NArith ZArith Bool Lia.
From Stdlib Require Import Strings.String Strings.Ascii Strings.Byte.
Import ListNotations.

Local Open Scope N_scope.

(** ** Python values *)

Definition bytes := list byte.
Definition char := N.
Definition str := list char.

(** An ASCII literal of the source as a [str]. *)
Definition lit (s : string) : str :=
  List.map N_of_ascii (list_ascii_of_string s).

(** The empty [str]. *)
Definition empty_str : str := lit EmptyString.

(** An ASCII literal as a [bytes] object. *)
Definition blit (s : string) : bytes := list_byte_of_string s.

Definition len {A} (s : list A) : Z := Z.of_nat (List.length s).

(** ** Exceptions *)

Inductive exn : Type :=
| IndexError
| ValueError.

Inductive result (A : Type) : Type :=
| Ok (a : A)
| Raise (e : exn).
Arguments Ok {A} a.
Arguments Raise {A} e.

(** ** Interpreter state visible to a call *)

Record py_env : Type := mk_env {
  DB_PATH : string;
  sys_modules : list string
}.

(** [import name]: the module cache gains [name] when it is not there. *)
Definition import_module (name : string) (g : py_env) : py_env :=
  if List.existsb (String.eqb name) (sys_modules g) then g
  else mk_env (DB_PATH g) (name :: sys_modules g).

(** State and exception monad. *)
Definition M (A : Type) : Type := py_env -> result A * py_env.

Definition ret {A} (a : A) : M A := fun g => (Ok a, g).
Definition bind {A B} (m : M A) (k : A -> M B) : M B :=
  fun g => match m g with
           | (Ok a, g') => k a g'
           | (Raise e, g') => (Raise e, g')
           end.
Definition lift {A} (r : result A) : M A := fun g => (r, g).
Definition modify (f : py_env -> py_env) : M unit := fun g => (Ok tt, f g).

Notation "x <- m ;; k" := (bind m (fun x => k))
  (at level 61, m at next level, right associativity).
Notation "m ;;; k" := (bind m (fun _ => k))
  (at level 61, right associativity).

(** ** bytes.decode('utf-8', errors='ignore')

    CPython's UTF-8 decoder with the [ignore] handler: an invalid start
    byte is skipped; after an invalid continuation byte the bytes read so
    far of the sequence are skipped; a sequence cut by the end of the data
    is skipped to the end. Nothing is put in place of what is skipped. *)

Definition is_continuation (b : N) : bool := (0x80 <=? b) && (b <? 0xC0).

Definition cp2 (ch ch2 : N) : N :=
  N.shiftl ch 6 + ch2 - (N.shiftl 0xC0 6 + 0x80).
Definition cp3 (ch ch2 ch3 : N) : N :=
  N.shiftl ch 12 + N.shiftl ch2 6 + ch3
  - (N.shiftl 0xE0 12 + N.shiftl 0x80 6 + 0x80).
Definition cp4 (ch ch2 ch3 ch4 : N) : N :=
  N.shiftl ch 18 + N.shiftl ch2 12 + N.shiftl ch3 6 + ch4
  - (N.shiftl 0xF0 18 + N.shiftl 0x80 12 + N.shiftl 0x80 6 + 0x80).

(** Second byte of a three-byte sequence: a continuation byte that gives
    neither an overlong form nor a surrogate. *)
Definition bad_second3 (ch ch2 : N) : bool :=
  negb (is_continuation ch2)
  || (if ch2 <? 0xA0 then ch =? 0xE0 else ch =? 0xED).

(** Second byte of a four-byte sequence: neither overlong nor above
    U+10FFFF. *)
Definition bad_second4 (ch ch2 : N) : bool :=
  negb (is_continuation ch2)
  || (if ch2 <? 0x90 then ch =? 0xF0 else ch =? 0xF4).

Fixpoint utf8_decode_ignore (s : bytes) : str :=
  match s with
  | [] => []
  | b1 :: r1 =>
    let ch := Byte.to_N b1 in
    if ch <? 0x80 then ch :: utf8_decode_ignore r1
    else if ch <? 0xC2 then utf8_decode_ignore r1
    else if ch <? 0xE0 then
      match r1 with
      | [] => []
      | b2 :: r2 =>
        let ch2 := Byte.to_N b2 in
        if is_continuation ch2 then cp2 ch ch2 :: utf8_decode_ignore r2
        else utf8_decode_ignore r1
      end
    else if ch <? 0xF0 then
      match r1 with
      | [] => []
      | b2 :: r2 =>
        let ch2 := Byte.to_N b2 in
        if bad_second3 ch ch2 then utf8_decode_ignore r1
        else
          match r2 with
          | [] => []
          | b3 :: r3 =>
            let ch3 := Byte.to_N b3 in
            if is_continuation ch3
            then cp3 ch ch2 ch3 :: utf8_decode_ignore r3
            else utf8_decode_ignore r2
          end
      end
    else if ch <? 0xF5 then
      match r1 with
      | [] => []
      | b2 :: r2 =>
        let ch2 := Byte.to_N b2 in
        if bad_second4 ch ch2 then utf8_decode_ignore r1
        else
          match r2 with
          | [] => []
          | b3 :: r3 =>
            let ch3 := Byte.to_N b3 in
            if negb (is_continuation ch3) then utf8_decode_ignore r2
            else
              match r3 with
              | [] => []
              | b4 :: r4 =>
                let ch4 := Byte.to_N b4 in
                if is_continuation ch4
                then cp4 ch ch2 ch3 ch4 :: utf8_decode_ignore r4
                else utf8_decode_ignore r3
              end
          end
      end
    else utf8_decode_ignore r1
  end.


(** ** str and list primitives *)

(** Slice bounds: a negative bound counts from the end, and every bound is
    clamped to the sequence. *)
Definition norm_index (n i : Z) : Z :=
  if (i <? 0)%Z then Z.max 0 (i + n) else Z.min i n.

(** [s[lo:hi]] *)
Definition slice {A} (s : list A) (lo hi : Z) : list A :=
  let l := norm_index (len s) lo in
  let h := norm_index (len s) hi in
  firstn (Z.to_nat (h - l)) (skipn (Z.to_nat l) s).

(** [s[lo:]] *)
Definition slice_from {A} (s : list A) (lo : Z) : list A :=
  skipn (Z.to_nat (norm_index (len s) lo)) s.

(** [s[:hi]] *)
Definition slice_to {A} (s : list A) (hi : Z) : list A :=
  firstn (Z.to_nat (norm_index (len s) hi)) s.

(** [s[i]], which raises [IndexError] out of range. *)
Definition index {A} (s : list A) (i : Z) : result A :=
  let j := if (i <? 0)%Z then (i + len s)%Z else i in
  if (j <? 0)%Z then Raise IndexError
  else match nth_error s (Z.to_nat j) with
       | Some x => Ok x
       | None => Raise IndexError
       end.

(** [s.startswith(p)] *)
Fixpoint startswith (s p : str) {struct p} : bool :=
  match p, s with
  | [], _ => true
  | x :: p', y :: s' => (x =? y) && startswith s' p'
  | _ :: _, [] => false
  end.

(** First position at which [sub] occurs in [s]. *)
Fixpoint find_nat (s sub : str) : option nat :=
  if startswith s sub then Some O
  else match s with
       | [] => None
       | _ :: s' => option_map S (find_nat s' sub)
       end.

(** [s.find(sub)], -1 when absent. *)
Definition find (s sub : str) : Z :=
  match find_nat s sub with
  | Some i => Z.of_nat i
  | None => (-1)%Z
  end.

(** [sub in s] *)
Definition contains (sub s : str) : bool :=
  match find_nat s sub with
  | Some _ => true
  | None => false
  end.

(** Truth value of a sequence: non-empty. *)
Definition truthy {A} (s : list A) : bool :=
  match s with
  | [] => false
  | _ :: _ => true
  end.

(** [s.split(sep)]: [skip] counts the characters of a separator still to
    pass over, [cur] holds the current piece, reversed. *)
Fixpoint split_aux (sep : str) (skip : nat) (cur s : str) : list str :=
  match s with
  | [] => [rev cur]
  | c :: s' =>
    match skip with
    | S k => split_aux sep k cur s'
    | O =>
      if startswith s sep
      then rev cur :: split_aux sep (List.length sep - 1) [] s'
      else split_aux sep O (c :: cur) s'
    end
  end.

Definition split (s sep : str) : result (list str) :=
  if truthy sep then Ok (split_aux sep O [] s) else Raise ValueError.

(** [s.replace(old, new)]: occurrences are replaced from the left,
    without overlap. *)
Fixpoint replace_aux (old new : str) (skip : nat) (s : str) : str :=
  match s with
  | [] => []
  | c :: s' =>
    match skip with
    | S k => replace_aux old new k s'
    | O =>
      if startswith s old
      then new ++ replace_aux old new (List.length old - 1) s'
      else c :: replace_aux old new O s'
    end
  end.

Definition replace (s old new : str) : str :=
  if truthy old then replace_aux old new O s
  else new ++ flat_map (fun c => c :: new) s.

(** [sep.join(parts)] *)
Fixpoint join (sep : str) (parts : list str) : str :=
  match parts with
  | [] => []
  | [p] => p
  | p :: rest => p ++ sep ++ join sep rest
  end.

(** White space, as [str.isspace], [str.split()], [str.strip()] and the
    [\s] of [re] on a [str] pattern all test it. *)
Definition isspace (c : char) : bool :=
  ((0x09 <=? c) && (c <=? 0x0D))
  || ((0x1C <=? c) && (c <=? 0x20))
  || (c =? 0x85) || (c =? 0xA0) || (c =? 0x1680)
  || ((0x2000 <=? c) && (c <=? 0x200A))
  || (c =? 0x2028) || (c =? 0x2029) || (c =? 0x202F)
  || (c =? 0x205F) || (c =? 0x3000).

Fixpoint dropwhile {A} (p : A -> bool) (s : list A) : list A :=
  match s with
  | [] => []
  | c :: s' => if p c then dropwhile p s' else s
  end.

Fixpoint takewhile {A} (p : A -> bool) (s : list A) : list A :=
  match s with
  | [] => []
  | c :: s' => if p c then c :: takewhile p s' else []
  end.

(** [s.strip()] *)
Definition strip (s : str) : str :=
  rev (dropwhile isspace (rev (dropwhile isspace s))).

(** [s.split()]: the maximal runs of characters that are not white
    space. *)
Fixpoint split_ws_aux (cur s : str) : list str :=
  match s with
  | [] => if truthy cur then [rev cur] else []
  | c :: s' =>
    if isspace c
    then (if truthy cur then rev cur :: split_ws_aux [] s'
          else split_ws_aux [] s')
    else split_ws_aux (c :: cur) s'
  end.

Definition split_ws (s : str) : list str := split_ws_aux [] s.

(** ** re.findall(r'https?://[^\s\x00]+', text) *)

(** The class [[^\s\x00]]. *)
Definition url_char (c : char) : bool := negb (isspace c) && negb (c =? 0).

(** [://[^\s\x00]+] at the start of [s]; the repetition is greedy and
    nothing follows it, so it takes the whole run. *)
Definition match_url_tail (s : str) : option str :=
  if startswith s (lit "://") then
    match takewhile url_char (skipn 3 s) with
    | [] => None
    | body => Some (lit "://" ++ body)
    end
  else None.

(** The whole pattern at the start of [s]: the optional [s] is tried
    first, then left out. *)
Definition match_url (s : str) : option str :=
  if startswith s (lit "http") then
    let r := skipn 4 s in
    match (if startswith r (lit "s")
           then option_map (app (lit "s")) (match_url_tail (skipn 1 r))
           else None) with
    | Some m => Some (lit "http" ++ m)
    | None => option_map (app (lit "http")) (match_url_tail r)
    end
  else None.

(** The matches from left to right, none overlapping: after a match the
    scan goes on behind it ([skip] counts its characters still to
    pass). *)
Fixpoint findall_aux (skip : nat) (s : str) : list str :=
  match s with
  | [] => []
  | _ :: s' =>
    match skip with
    | S k => findall_aux k s'
    | O =>
      match match_url s with
      | Some m => m :: findall_aux (List.length m - 1) s'
      | None => findall_aux O s'
      end
    end
  end.

Definition re_findall_url (text : str) : list str := findall_aux O text.

(** ** Character classes

    [str.islower], [str.isupper] and [str.isprintable] of one character.
    On ASCII they are as below; above 127 they read the Unicode character
    database of the interpreter, which is a parameter here. *)

Record unicode_db : Type := mk_ucd {
  uni_islower : char -> bool;
  uni_isupper : char -> bool;
  uni_isprintable : char -> bool
}.

Notation "x <-? m ;; k" :=
  (match m with Ok x => k | Raise e => Raise e end)
  (at level 61, m at next level, right associativity).

Section Decoder.

Variable ucd : unicode_db.

Definition islower (c : char) : bool :=
  if c <? 128 then (0x61 <=? c) && (c <=? 0x7A) else uni_islower ucd c.

Definition isupper (c : char) : bool :=
  if c <? 128 then (0x41 <=? c) && (c <=? 0x5A) else uni_isupper ucd c.

Definition isprintable (c : char) : bool :=
  if c <? 128 then (0x20 <=? c) && (c <=? 0x7E) else uni_isprintable ucd c.

(** ** Method 1: the length-prefixed run after [+] *)

(** Lines 26-33: the payload behind the length prefix of [raw]. *)
Definition skip_length_prefix (raw : str) : result str :=
  is_long <-? (if truthy raw
               then c <-? index raw 0 ;; Ok (c =? 0x81)
               else Ok false) ;;
  if is_long then
    Ok (if (3 <? len raw)%Z then slice_from raw 3 else empty_str)
  else
    is_short <-? (if truthy raw
                  then c <-? index raw 0 ;; Ok (c <? 128)
                  else Ok false) ;;
    if is_short then Ok (slice_from raw 1) else Ok raw.

Definition cutoffs : list str :=
  [lit "__kIM"; lit "NSNumber"; lit "NSValue"; lit "NSDictionary";
   [0x02]; [0x86]].

(** Lines 38-39: one turn of the loop over [cutoffs]. *)
Definition cut_at (chunk cutoff : str) : str :=
  if contains cutoff chunk then slice_to chunk (find chunk cutoff)
  else chunk.

(** Lines 37-39. *)
Definition cut_markers (chunk : str) : str := fold_left cut_at cutoffs chunk.

(** Lines 42-43. *)
Definition drop_artifact (chunk : str) : result str :=
  if (2 <? len chunk)%Z then
    c0 <-? index chunk 0 ;;
    if islower c0 then
      c1 <-? index chunk 1 ;;
      if isupper c1 then Ok (slice_from chunk 1) else Ok chunk
    else Ok chunk
  else Ok chunk.

(** Lines 22-45: the chunk that Method 1 weighs, for a [text] with a
    [+]. *)
Definition modern_chunk (text : str) : result str :=
  let idx := find text (lit "+") in
  let raw := slice text (idx + 1) (idx + 1000) in
  chunk <-? skip_length_prefix raw ;;
  let chunk := cut_markers chunk in
  chunk <-? drop_artifact chunk ;;
  Ok (strip chunk).

(** Lines 21-47: [Some chunk] when [return chunk] is reached. *)
Definition method1 (text : str) : result (option str) :=
  if contains (lit "+") text then
    chunk <-? modern_chunk text ;;
    if (3 <? len chunk)%Z then Ok (Some chunk) else Ok None
  else Ok None.

(** ** Method 2: streamtyped *)

Definition markers : list str :=
  [lit "NSMutableString"; lit "NSDictionary"; lit "NSNumber"; lit "NSValue";
   lit "NSObject"; lit "NSData"; lit "i"; lit "I"].

(** Lines 58-62: [readable] for one [part]. *)
Definition clean_part (part : str) : str :=
  let readable := filter isprintable part in
  let readable :=
    fold_left (fun r marker => replace r marker (lit " ")) markers readable in
  strip (join (lit " ") (split_ws readable)).

(** Line 63. *)
Definition qualifies (readable : str) : bool :=
  (10 <? len readable)%Z && negb (startswith readable (lit "+")).

(** Lines 56-64: [Some r] when [return readable[:500]] is reached. *)
Fixpoint nsstring_loop (parts : list str) : option str :=
  match parts with
  | [] => None
  | part :: rest =>
    let readable := clean_part part in
    if qualifies readable then Some (slice_to readable 500)
    else nsstring_loop rest
  end.

(** Lines 50-69. *)
Definition method2 (text : str) : M (option str) :=
  if contains (lit "streamtyped") text then
    modify (import_module "re") ;;;
    parts <- lift (split text (lit "NSString")) ;;
    match nsstring_loop (slice_from parts 1) with
    | Some r => ret (Some r)
    | None =>
      let urls := re_findall_url text in
      if truthy urls then u <- lift (index urls 0) ;; ret (Some u)
      else ret None
    end
  else ret None.

(** ** The decoder *)

(** Lines 18-71, the body of the [try]. *)
Definition decode_body (blob : bytes) : M str :=
  let text := utf8_decode_ignore blob in
  r <- lift (method1 text) ;;
  match r with
  | Some chunk => ret chunk
  | None =>
    r <- method2 text ;;
    match r with
    | Some found => ret found
    | None => ret (empty_str)
    end
  end.

(** [try: body except: handler] with a bare [except]. *)
Definition try_except {A} (body : M A) (handler : M A) : M A :=
  fun g => match body g with
           | (Ok a, g') => (Ok a, g')
           | (Raise _, g') => handler g'
           end.

(** Lines 13-73. The argument is [None] or a [bytes] object. *)
Definition decode_attributed_body (blob : option bytes) : M str :=
  match blob with
  | None => ret (empty_str)
  | Some b =>
    if negb (truthy b) then ret (empty_str)
    else try_except (decode_body b) (ret (empty_str))
  end.

(** The text a call returns in the state [g]. *)
Definition decoded (blob : option bytes) (g : py_env) : result str :=
  fst (decode_attributed_body blob g).

End Decoder.

(** ** The decoder without the monad

    What the monadic definitions compute, as plain functions; the run
    lemmas below relate the two. *)

(** What Method 2 yields, without the monad. *)
Definition streamtyped_text (ucd : unicode_db) (text : str) : option str :=
  if contains (lit "streamtyped") text then
    match nsstring_loop ucd
            (slice_from (split_aux (lit "NSString") O [] text) 1) with
    | Some r => Some r
    | None => hd_error (re_findall_url text)
    end
  else None.

(** The state Method 2 leaves. *)
Definition env_after_method2 (text : str) (g : py_env) : py_env :=
  if contains (lit "streamtyped") text then import_module "re" g else g.

(** What the body of the [try] yields, without the monad. *)
Definition body_text (ucd : unicode_db) (text : str) : str :=
  match method1 ucd text with
  | Ok (Some chunk) => chunk
  | _ => match streamtyped_text ucd text with
         | Some found => found
         | None => empty_str
         end
  end.

Definition env_after_body (ucd : unicode_db) (text : str) (g : py_env)
  : py_env :=
  match method1 ucd text with
  | Ok (Some _) => g
  | _ => env_after_method2 text g
  end.

(** What the dispatcher does once Method 1 has yielded nothing: run
    Method 2 and return what it found, or the empty string. *)
Definition legacy_then_empty (ucd : unicode_db) (text : str) : M str :=
  r <- method2 ucd text ;;
  ret (match r with Some found => found | None => empty_str end).

(** ** str.encode('utf-8')

    The encoder is the reference against which the text view is
    described: [utf8_encode s] is the one valid encoding of the text
    [s]. *)

Definition byte_of_N (n : N) : byte :=
  match Byte.of_N n with
  | Some b => b
  | None => x00
  end.

Definition utf8_encode_char (c : char) : bytes :=
  if c <? 0x80 then [byte_of_N c]
  else if c <? 0x800 then
    [byte_of_N (0xC0 + c / 64); byte_of_N (0x80 + c mod 64)]
  else if c <? 0x10000 then
    [byte_of_N (0xE0 + c / 4096); byte_of_N (0x80 + (c / 64) mod 64);
     byte_of_N (0x80 + c mod 64)]
  else
    [byte_of_N (0xF0 + c / 262144); byte_of_N (0x80 + (c / 4096) mod 64);
     byte_of_N (0x80 + (c / 64) mod 64); byte_of_N (0x80 + c mod 64)].

Definition utf8_encode (s : str) : bytes := flat_map utf8_encode_char s.

(** A Unicode scalar value: a code point that is not a surrogate. *)
Definition is_scalar (c : char) : bool :=
  (c <? 0xD800) || ((0xE000 <=? c) && (c <? 0x110000)).

(** A byte that starts no sequence: a continuation byte, [C0], [C1], or
    [F5] and above. *)
Definition invalid_start (b : byte) : bool :=
  ((0x80 <=? Byte.to_N b) && (Byte.to_N b <? 0xC2)) || (0xF5 <=? Byte.to_N b).

(** ** The decoder, one sequence at a time *)





(** ** Notions the statements use *)

(** [p] is a prefix of [s]. *)
Definition is_prefix (p s : str) : Prop := exists rest, s = p ++ rest.

(** A text the pattern matches in full: [http://] or [https://] and then
    one or more characters that are neither white space nor U+0000. *)
Definition is_url (m : str) : Prop :=
  exists body : str,
    body <> [] /\ forallb url_char body = true
    /\ (m = lit "http://" ++ body \/ m = lit "https://" ++ body).

(** Nothing after the match could extend it. *)
Definition stops (post : str) : Prop :=
  match post with
  | [] => True
  | c :: _ => url_char c = false
  end.

(** [m] is what the pattern matches at the start of [s]. *)
Definition url_match (s m : str) : Prop :=
  is_url m /\ exists post : str, s = m ++ post /\ stops post.

(** [m] is the first match in [text]: it starts where [pre] ends, and the
    pattern matches at no earlier position. *)
Definition first_url (text m : str) : Prop :=
  exists pre post : str,
    text = pre ++ post
    /\ url_match post m
    /\ forall (i : nat) (m' : str),
         (i < List.length pre)%nat -> ~ url_match (skipn i text) m'.

(** ** Samples *)

(** A database that lists nothing above 127: enough to run the decoder
    on samples made of ASCII and control characters. *)
Definition sample_ucd : unicode_db :=
  mk_ucd (fun _ => false) (fun _ => false) (fun _ => false).

(** A state before any import. *)
Definition env0 : py_env := mk_env "~/Library/Messages/chat.db" [].

(** The text view of the long-message sample, and a blob that has it. *)
Definition sample_long_view : str :=
  lit "junk+" ++ [0x81; 0x00; 0x00] ++ lit "Hello world__kIMextra".

Definition sample_long_blob : bytes :=
  blit "junk+" ++ [xc2; x81; x00; x00] ++ blit "Hello world__kIMextra".

(** Runs whose payloads are [Hi] and [Hello] with two spaces on either
    side. *)
Definition sample_padded_short_blob : bytes :=
  blit "junk+" ++ [x06] ++ blit "  Hi  ".

Definition sample_padded_long_blob : bytes :=
  blit "junk+" ++ [x09] ++ blit "  Hello  ".

(** A streamtyped blob whose one segment is 501 letters long. *)
Definition sample_long_segment : str := repeat 0x61 501.

Definition sample_long_segment_blob : bytes :=
  blit "streamtypedNSString" ++ repeat x61 501.

(** A streamtyped blob with a short segment before the message. *)
Definition sample_legacy_blob : bytes :=
  blit "streamtypedNSStringabcNSStringZZZSome message text hereNSDictionary...".

(** A streamtyped blob with a [+] run and a URL. *)
Definition sample_preempted_blob : bytes :=
  blit "streamtyped+ hello https://x.y".

(** A streamtyped blob with a URL and no segment. *)
Definition sample_url_blob : bytes :=
  blit "streamtyped https://example.com/x?y=1 ".

(** ** More notions the statements use *)

(** [sub] occurs in [s]. *)
Definition is_substring (sub s : str) : Prop :=
  exists pre post, s = pre ++ sub ++ post.

(** [t] is the end of [s]. *)
Definition is_suffix (t s : str) : Prop := exists h, s = h ++ t.

(** [s] does not begin with white space. *)
Definition starts_nonspace (s : str) : bool :=
  match s with
  | [] => true
  | c :: _ => negb (isspace c)
  end.

(** No two white-space characters stand side by side in [s]. *)
Fixpoint no_double_space (s : str) : bool :=
  match s with
  | [] => true
  | c1 :: t =>
    match t with
    | [] => true
    | c2 :: _ => negb (isspace c1 && isspace c2) && no_double_space t
    end
  end.

(** A piece [str.split()] yields: not empty, no white space in it. *)
Definition word (w : str) : Prop :=
  w <> [] /\ Forall (fun c => isspace c = false) w.

(** Where [t] first occurs in [s], or the length of [s]. *)
Definition first_pos (s t : str) : nat :=
  match find_nat s t with
  | Some i => i
  | None => List.length s
  end.

(** The least position at which one of [tokens] occurs in [s], or the
    length of [s]. *)
Definition earliest (tokens : list str) (s : str) : nat :=
  fold_right (fun t m => Nat.min (first_pos s t) m) (List.length s) tokens.

(** One of the two texts is a prefix of the other. *)
Definition compatible (a b : str) : bool := startswith a b || startswith b a.

(** No token can start inside an occurrence of a token. *)
Definition overlap_free (tokens : list str) : bool :=
  forallb (fun k =>
    forallb (fun j =>
      forallb (fun d => negb (compatible (skipn d k) j))
              (seq 1 (List.length k - 1)))
      tokens)
    tokens.

(** A length prefix as lines 26-31 read it: one character below 128, or
    0x81 and two more characters. *)
Definition length_prefix (h : str) : bool :=
  match h with
  | [c] => c <? 128
  | [c; _; _] => c =? 0x81
  | _ => false
  end.

(** The chunk has the shape line 42 takes for an artifact. *)
Definition artifact_shaped (ucd : unicode_db) (chunk : str) : bool :=
  match chunk with
  | c0 :: c1 :: _ :: _ => islower ucd c0 && isupper ucd c1
  | _ => false
  end.

(** ** get_messages

    The database and the clock are outside the program: what
    [sqlite3.connect], [conn.execute], the cursor and [conn.close] do,
    and the threshold of lines 80-82 for a number of days, are
    parameters, and so is [str.lower] on a text with a character above
    127. Each of the library calls may raise: [sqlite3.connect] where the
    file cannot be opened, the date arithmetic of line 80 where the
    threshold leaves the range of [datetime] (an [OverflowError], as for
    a million days), [conn.execute] and the iteration of the cursor on an
    error of the database. Such an exception ends the call, for nothing
    in [get_messages] catches it. A row has the six columns of the
    [SELECT]; a column that may be [NULL] is an [option]. *)

(** How a call ends: it returns, it raises an exception of the
    program's own operations, or an exception raised inside [sqlite3] or
    [datetime] passes through it. *)
Inductive answer (failure A : Type) : Type :=
| Returns (a : A)
| Raises (e : exn)
| LibraryRaises (f : failure).
Arguments Returns {failure A} a.
Arguments Raises {failure A} e.
Arguments LibraryRaises {failure A} f.

Record row : Type := mk_row {
  row_date : option str;
  row_contact : option str;
  row_service : option str;
  row_is_from_me : option Z;
  row_text : option str;
  row_attr_body : option bytes
}.

(** What iterating a cursor gives: the rows it yields and, where the
    iteration fails, the exception that ends it after them. *)
Record cursor (failure : Type) : Type := mk_cursor {
  cursor_rows : list row;
  cursor_fails : option failure
}.
Arguments mk_cursor {failure} _ _.
Arguments cursor_rows {failure} _.
Arguments cursor_fails {failure} _.

(** The dictionary appended to [results]. *)
Record message : Type := mk_message {
  msg_date : option str;
  msg_contact : option str;
  msg_service : option str;
  msg_from_me : bool;
  msg_text : str
}.

(** [str.lower] of one ASCII character. *)
Definition ascii_lower (c : char) : char :=
  if (0x41 <=? c) && (c <=? 0x5A) then c + 32 else c.

(** Lines 84-96: the text of the query, line by line. *)
Definition BASE_QUERY : str :=
  join [0x0A]
    [empty_str;
     lit "        SELECT";
     lit "            datetime(m.date/1000000000 + 978307200, 'unixepoch', 'localtime') as date,";
     lit "            h.id as contact,";
     lit "            h.service,";
     lit "            m.is_from_me,";
     lit "            m.text,";
     lit "            m.attributedBody";
     lit "        FROM message m";
     lit "        LEFT JOIN handle h ON m.handle_id = h.ROWID";
     lit "        WHERE m.date > ?";
     lit "        AND (m.text IS NOT NULL OR m.attributedBody IS NOT NULL)";
     lit "    "].

(** [bool(x)] of an integer column. *)
Definition bool_of_int (x : option Z) : bool :=
  match x with
  | Some z => negb (z =? 0)%Z
  | None => false
  end.

Section Messages.

Variable ucd : unicode_db.

(** [str.lower] of a text with a character above 127. *)
Variable uni_lower : str -> str.

(** The type of Python's floats. *)
Variable real : Type.

(** Lines 80-82: the threshold for [days], at the time of the call,
    where the date arithmetic does not raise. *)
Variable ns_threshold_of : Z -> real.

(** A parameter bound to a [?]. *)
Inductive sql_param : Type :=
| PReal (x : real)
| PText (s : str)
| PInt (n : Z).

(** [s.lower()] *)
Definition lower (s : str) : str :=
  if forallb (fun c => c <? 128) s then List.map ascii_lower s
  else uni_lower s.

(** Lines 84-104: the query and its parameters. *)
Definition build_query (contact : option str) (days limit : Z)
  : str * list sql_param :=
  let query := BASE_QUERY in
  let params := [PReal (ns_threshold_of days)] in
  let '(query, params) :=
    match contact with
    | Some (c :: t) =>
      (query ++ lit " AND h.id LIKE ?",
       params ++ [PText (lit "%" ++ (c :: t) ++ lit "%")])
    | _ => (query, params)
    end in
  (query ++ lit " ORDER BY m.date DESC LIMIT ?", params ++ [PInt limit]).

(** Line 113. *)
Definition row_content (r : row) : M str :=
  match row_text r with
  | Some (c :: t) => ret (c :: t)
  | _ => decode_attributed_body ucd (row_attr_body r)
  end.

(** Line 119: the content fails the search. *)
Definition search_misses (search : option str) (content : str) : bool :=
  match search with
  | Some (c :: t) => negb (contains (lower (c :: t)) (lower content))
  | _ => false
  end.

(** Lines 109-128: the loop over the cursor. *)
Fixpoint collect (search : option str) (rows : list row)
         (results : list message) : M (list message) :=
  match rows with
  | [] => ret results
  | r :: rest =>
    content <- row_content r ;;
    if negb (truthy content) then collect search rest results
    else if search_misses search content then collect search rest results
    else
      collect search rest
        (results ++ [mk_message (row_date r) (row_contact r) (row_service r)
                                (bool_of_int (row_is_from_me r)) content])
  end.

(** The exceptions [sqlite3] and [datetime] raise. *)
Variable failure : Type.

(** An open connection. *)
Variable connection : Type.

(** Line 77: [sqlite3.connect(path)]. *)
Variable connect : string -> failure + connection.

(** Line 80: the exception the date arithmetic raises for [days], if it
    raises. *)
Variable threshold_raises : Z -> option failure.

(** Line 106: [conn.execute(query, params)]. *)
Variable execute : connection -> str -> list sql_param
                   -> failure + cursor failure.

(** Line 130: [conn.close()]. *)
Variable close : connection -> option failure.

(** Lines 75-131. *)
Definition get_messages (contact search : option str) (days limit : Z)
  : py_env -> answer failure (list message) * py_env :=
  fun g =>
    match connect (DB_PATH g) with
    | inl f => (LibraryRaises f, g)
    | inr conn =>
      match threshold_raises days with
      | Some f => (LibraryRaises f, g)
      | None =>
        let '(query, params) := build_query contact days limit in
        match execute conn query params with
        | inl f => (LibraryRaises f, g)
        | inr cur =>
          match collect search (cursor_rows cur) [] g with
          | (Raise e, g') => (Raises e, g')
          | (Ok results, g') =>
            match cursor_fails cur with
            | Some f => (LibraryRaises f, g')
            | None =>
              match close conn with
              | Some f => (LibraryRaises f, g')
              | None => (Returns results, g')
              end
            end
          end
        end
      end
    end.

End Messages.

(** ** main, the text output *)

(** An f-string field holding a [str] or [None]. *)
Definition fmt (x : option str) : str :=
  match x with
  | Some s => s
  | None => lit "None"
  end.

(** [a == b] for two texts. *)
Fixpoint str_eqb (a b : str) : bool :=
  match a, b with
  | [], [] => true
  | x :: a', y :: b' => (x =? y) && str_eqb a' b'
  | _, _ => false
  end.

(** [service != 'iMessage'], for a [str] or [None]. *)
Definition not_imessage (service : option str) : bool :=
  match service with
  | Some s => negb (str_eqb s (lit "iMessage"))
  | None => true
  end.

(** Lines 154-158: what the three [print] calls write for one message;
    the arrows are U+2192 and U+2190. *)
Definition print_message (msg : message) : list str :=
  let direction := if msg_from_me msg then [0x2192] else [0x2190] in
  let service :=
    if not_imessage (msg_service msg)
    then lit "[" ++ fmt (msg_service msg) ++ lit "]"
    else empty_str in
  [fmt (msg_date msg) ++ lit " " ++ direction ++ lit " "
     ++ fmt (msg_contact msg) ++ lit " " ++ service;
   lit "  " ++ slice_to (msg_text msg) 200;
   empty_str].

(** Lines 153-158. *)
Definition print_messages (messages : list message) : list str :=
  flat_map print_message messages.

(** ** get_messages without the monad *)

(** The content of a row. *)
Definition content_of (ucd : unicode_db) (r : row) : str :=
  match row_text r with
  | Some (c :: t) => c :: t
  | _ => match row_attr_body r with
         | Some (x :: b) => body_text ucd (utf8_decode_ignore (x :: b))
         | _ => empty_str
         end
  end.

(** The message made of a row. *)
Definition message_of (ucd : unicode_db) (r : row) : message :=
  mk_message (row_date r) (row_contact r) (row_service r)
             (bool_of_int (row_is_from_me r)) (content_of ucd r).

(** Lines 115 and 119: the row is appended. *)
Definition kept (ucd : unicode_db) (uni_lower : str -> str)
           (search : option str) (r : row) : bool :=
  truthy (content_of ucd r)
  && negb (search_misses uni_lower search (content_of ucd r)).

(** The number of [?] in a query. *)
Definition placeholders (query : str) : nat :=
  List.length (filter (N.eqb 0x3F) query).

(** What the library gives a call on the database at [path]: the first
    exception it raises, or the rows of the cursor. *)
Definition rows_of {real failure connection : Type}
           (ns_threshold_of : Z -> real)
           (connect : string -> failure + connection)
           (threshold_raises : Z -> option failure)
           (execute : connection -> str -> list (sql_param real)
                      -> failure + cursor failure)
           (close : connection -> option failure)
           (path : string) (contact : option str) (days limit : Z)
  : failure + list row :=
  match connect path with
  | inl f => inl f
  | inr conn =>
    match threshold_raises days with
    | Some f => inl f
    | None =>
      match execute conn
              (fst (build_query real ns_threshold_of contact days limit))
              (snd (build_query real ns_threshold_of contact days limit))
      with
      | inl f => inl f
      | inr cur =>
        match cursor_fails cur with
        | Some f => inl f
        | None =>
          match close conn with
          | Some f => inl f
          | None => inr (cursor_rows cur)
          end
        end
      end
    end
  end.

(** ** voice-command-center: the intents

    [main.py] and the three abilities. The handlers run scripts and read
    files; they are parameters, as is the world they act on. *)

(** A dictionary with [str] keys, in insertion order. *)
Definition dict (V : Type) : Type := list (str * V).

(** The outcome of [d[k]]. *)
Inductive lookup (V : Type) : Type :=
| Found (v : V)
| KeyError.
Arguments Found {V} v.
Arguments KeyError {V}.

(** [d[k]] *)
Fixpoint dict_get {V} (d : dict V) (k : str) : lookup V :=
  match d with
  | [] => KeyError
  | (k', v) :: d' => if str_eqb k' k then Found v else dict_get d' k
  end.

(** [d[k] = v]: the value of an old key is replaced where it stands, a
    new key goes to the end. *)
Fixpoint dict_set {V} (d : dict V) (k : str) (v : V) : dict V :=
  match d with
  | [] => [(k, v)]
  | (k', v') :: d' =>
    if str_eqb k' k then (k', v) :: d' else (k', v') :: dict_set d' k v
  end.

(** [any(w in s for w in ws)] *)
Definition any_in (ws : list str) (s : str) : bool :=
  existsb (fun w => contains w s) ws.

(** An ability: [intents], [handlers] and [examples]. *)
Record ability (handler : Type) : Type := mk_ability {
  intents : list str;
  handlers : dict handler;
  examples : dict (list str)
}.
Arguments mk_ability {handler} _ _ _.
Arguments intents {handler} _.
Arguments handlers {handler} _.
Arguments examples {handler} _.

(** An entry of the registry: [ability], [handler], [examples]. *)
Record entry (handler : Type) : Type := mk_entry {
  entry_ability : str;
  entry_handler : handler;
  entry_examples : list str
}.
Arguments mk_entry {handler} _ _ _.
Arguments entry_ability {handler} _.
Arguments entry_handler {handler} _.
Arguments entry_examples {handler} _.

(** main.py, line 31. *)
Definition NOT_UNDERSTOOD : str :=
  lit "I didn't understand that. Try things like: 'add task buy milk' or 'what's on my calendar tomorrow'".

Section VoiceCommandCenter.

Variable uni_lower : str -> str.

(** The world the handlers act on, and what a handler is: it returns a
    text or fails. *)
Variable world : Type.
Variable failure : Type.
Definition handler : Type := str -> world -> (str + failure) * world.

Variables add_task complete_task list_tasks : handler.
Variables query_calendar create_event : handler.
Variables log_outreach get_streak company_info : handler.

(** things3.py, lines 9-31. *)
Definition Things3Ability : ability handler :=
  mk_ability
    [lit "things_add"; lit "things_complete"; lit "things_list"]
    [(lit "things_add", add_task);
     (lit "things_complete", complete_task);
     (lit "things_list", list_tasks)]
    [(lit "things_add",
      [lit "add task buy milk"; lit "create task call mom";
       lit "new todo finish report"]);
     (lit "things_complete",
      [lit "complete task buy milk"; lit "done with meeting notes";
       lit "finish task review design"]);
     (lit "things_list",
      [lit "list my tasks"; lit "what are my todos";
       lit "show today's tasks"])].

(** calendar.py, lines 8-24. *)
Definition CalendarAbility : ability handler :=
  mk_ability
    [lit "calendar_query"; lit "calendar_create"]
    [(lit "calendar_query", query_calendar);
     (lit "calendar_create", create_event)]
    [(lit "calendar_query",
      [lit "what's on my calendar today"; lit "show me tomorrow's meetings";
       lit "do I have anything at 3pm"]);
     (lit "calendar_create",
      [lit "add meeting with John at 3pm";
       lit "schedule lunch tomorrow at noon";
       lit "book 30 min with team Friday"])].

(** crm.py, lines 12-34. *)
Definition CRMAbility : ability handler :=
  mk_ability
    [lit "crm_log_outreach"; lit "crm_streak"; lit "crm_company"]
    [(lit "crm_log_outreach", log_outreach);
     (lit "crm_streak", get_streak);
     (lit "crm_company", company_info)]
    [(lit "crm_log_outreach",
      [lit "log outreach to Company X";
       lit "recorded contact with Jane from Acme";
       lit "did outreach at Google today"]);
     (lit "crm_streak",
      [lit "what's my outreach streak"; lit "how many outreach this week";
       lit "streak status"]);
     (lit "crm_company",
      [lit "info on Company X"; lit "notes about Google";
       lit "what do I know about Acme"])].

(** main.py, lines 10-14. *)
Definition abilities : dict (ability handler) :=
  [(lit "things3", Things3Ability);
   (lit "calendar", CalendarAbility);
   (lit "crm", CRMAbility)].

(** main.py, lines 20-25: the loop over the intents of one ability. *)
Fixpoint register_intents (name : str) (a : ability handler)
         (todo : list str) (registry : dict (entry handler))
  : lookup (dict (entry handler)) :=
  match todo with
  | [] => Found registry
  | intent :: rest =>
    match dict_get (handlers a) intent with
    | KeyError => KeyError
    | Found h =>
      match dict_get (examples a) intent with
      | KeyError => KeyError
      | Found ex =>
        register_intents name a rest
          (dict_set registry intent (mk_entry name h ex))
      end
    end
  end.

(** main.py, lines 19-25: the loop over the abilities. *)
Fixpoint register_abilities (items : dict (ability handler))
         (registry : dict (entry handler)) : lookup (dict (entry handler)) :=
  match items with
  | [] => Found registry
  | (name, a) :: rest =>
    match register_intents name a (intents a) registry with
    | KeyError => KeyError
    | Found registry' => register_abilities rest registry'
    end
  end.

(** main.py, lines 17-26. *)
Definition _build_registry : lookup (dict (entry handler)) :=
  register_abilities abilities [].

(** main.py, lines 39-78. *)
Definition _classify_intent (command : str) : option str :=
  let command_lower := lower uni_lower command in
  if any_in [lit "task"; lit "todo"; lit "things"] command_lower then
    if any_in [lit "add"; lit "create"; lit "new"] command_lower
    then Some (lit "things_add")
    else if any_in [lit "complete"; lit "done"; lit "finish"] command_lower
    then Some (lit "things_complete")
    else Some (lit "things_list")
  else if any_in [lit "calendar"; lit "event"; lit "meeting"; lit "schedule"]
                 command_lower then
    if any_in [lit "add"; lit "create"; lit "schedule"; lit "book"]
              command_lower
    then Some (lit "calendar_create")
    else Some (lit "calendar_query")
  else if any_in [lit "outreach"; lit "contact"; lit "company";
                  lit "reach out"; lit "streak"; lit "crm"; lit "info";
                  lit "about"; lit "notes"] command_lower then
    if any_in [lit "log"; lit "add"; lit "record"; lit "did"] command_lower
    then Some (lit "crm_log_outreach")
    else if contains (lit "streak") command_lower
    then Some (lit "crm_streak")
    else if any_in [lit "company"; lit "notes"; lit "info"] command_lower
    then Some (lit "crm_company")
    else Some (lit "crm_log_outreach")
  else None.

(** What [handle_command] does: it returns a text, or a lookup raises
    [KeyError], or the handler fails. *)
Inductive outcome : Type :=
| Returned (s : str)
| RaisedKeyError
| HandlerFailed (f : failure).

(** main.py, lines 28-37, for the registry built in [__init__]. *)
Definition handle_command (ability_registry : dict (entry handler))
           (command : str) (w : world) : outcome * world :=
  match _classify_intent command with
  | None | Some [] => (Returned NOT_UNDERSTOOD, w)
  | Some intent =>
    match dict_get ability_registry intent with
    | KeyError => (RaisedKeyError, w)
    | Found e =>
      match entry_handler e command w with
      | (inl result, w') => (Returned result, w')
      | (inr f, w') => (HandlerFailed f, w')
      end
    end
  end.

End VoiceCommandCenter.

(** ** calendar.py: relative dates

    The clock and the calendar are outside the program: a day is its
    ordinal ([date.toordinal]), today's ordinal is an argument, and
    [strftime("%Y-%m-%d")] is a parameter. *)

(** [weekday()]: Monday is 0. *)
Definition weekday (ordinal : Z) : Z := ((ordinal + 6) mod 7)%Z.

(** [x or y] for two integers. *)
Definition int_or (x y : Z) : Z := if (x =? 0)%Z then y else x.

Section Calendar.

Variable uni_lower : str -> str.
Variable strftime_ymd : Z -> str.

(** calendar.py, lines 38-62. *)
Definition _parse_relative_date (today : Z) (text : str) : str :=
  let text := lower uni_lower text in
  if contains (lit "today") text then strftime_ymd today
  else if contains (lit "tomorrow") text then strftime_ymd (today + 1)
  else if contains (lit "monday") text then
    let days_ahead := int_or ((7 - weekday today) mod 7) 7 in
    strftime_ymd (today + days_ahead)
  else if contains (lit "tuesday") text then
    let days_ahead := int_or ((7 - weekday today + 1) mod 7) 7 in
    strftime_ymd (today + days_ahead)
  else if contains (lit "wednesday") text then
    let days_ahead := int_or ((7 - weekday today + 2) mod 7) 7 in
    strftime_ymd (today + days_ahead)
  else if contains (lit "thursday") text then
    let days_ahead := int_or ((7 - weekday today + 3) mod 7) 7 in
    strftime_ymd (today + days_ahead)
  else if contains (lit "friday") text then
    let days_ahead := int_or ((7 - weekday today + 4) mod 7) 7 in
    strftime_ymd (today + days_ahead)
  else strftime_ymd today.

End Calendar.

(** The day words of [_parse_relative_date] that name a weekday, Monday
    first. *)
Definition weekday_words : list str :=
  [lit "monday"; lit "tuesday"; lit "wednesday"; lit "thursday";
   lit "friday"].

(** The words that make a command a task, a calendar or a CRM command. *)
Definition trigger_words : list str :=
  [lit "task"; lit "todo"; lit "things"]
  ++ [lit "calendar"; lit "event"; lit "meeting"; lit "schedule"]
  ++ [lit "outreach"; lit "contact"; lit "company"; lit "reach out";
      lit "streak"; lit "crm"; lit "info"; lit "about"; lit "notes"].

(** The keys of the registry, in the order of insertion. *)
Definition registered_intents : list str :=
  [lit "things_add"; lit "things_complete"; lit "things_list";
   lit "calendar_query"; lit "calendar_create";
   lit "crm_log_outreach"; lit "crm_streak"; lit "crm_company"].

(** ** More samples *)

(** The short-message sample: length byte 5, payload, marker. *)
Definition sample_framed_blob : bytes :=
  blit "junk+" ++ [x05] ++ blit "Hi thereNSNumbertail".

(** A blob with neither [+] nor [streamtyped]. *)
Definition sample_plain_blob : bytes := blit "https://example.com/ hello".

(** Rows of a sample database: a text, an attributedBody alone, a text
    that is one space, and an empty text. *)
Definition sample_rows : list row :=
  [mk_row (Some (lit "2024-05-01 10:00:00")) (Some (lit "+15550100"))
          (Some (lit "iMessage")) (Some 1%Z) (Some (lit "Hello there")) None;
   mk_row (Some (lit "2024-05-01 09:00:00")) (Some (lit "+15550100"))
          (Some (lit "RCS")) (Some 0%Z) None (Some sample_framed_blob);
   mk_row (Some (lit "2024-05-01 08:00:00")) (Some (lit "+15550101"))
          (Some (lit "SMS")) (Some 0%Z) (Some (lit " ")) None;
   mk_row (Some (lit "2024-05-01 07:00:00")) None
          None (Some 1%Z) (Some empty_str) None].

(** The exceptions of the sample library. *)
Inductive sample_failure : Type :=
| OverflowError
| OperationalError.

(** A sample library. The clock stands at the Apple epoch, and the date
    arithmetic raises beyond three million days; the one database is
    that of [env0] and holds [sample_rows]. *)
Definition sample_threshold (days : Z) : Z :=
  (- days * 86400 * 1000000000)%Z.

Definition sample_threshold_raises (days : Z) : option sample_failure :=
  if (3000000 <? Z.abs days)%Z then Some OverflowError else None.

Definition sample_connect (path : string) : sample_failure + unit :=
  if String.eqb path (DB_PATH env0) then inr tt else inl OperationalError.

Definition sample_execute (conn : unit) (query : str)
           (params : list (sql_param Z))
  : sample_failure + cursor sample_failure :=
  inr (mk_cursor sample_rows None).

Definition sample_close (conn : unit) : option sample_failure := None.

(** * Properties *)

Ltac bool_arith :=
  repeat match goal with
  | |- context [?a <? ?b] =>
      first [ replace (a <? b) with true by (symmetry; apply N.ltb_lt; lia)
            | replace (a <? b) with false by (symmetry; apply N.ltb_ge; lia) ]
  | |- context [?a <=? ?b] =>
      first [ replace (a <=? b) with true by (symmetry; apply N.leb_le; lia)
            | replace (a <=? b) with false by (symmetry; apply N.leb_gt; lia) ]
  | |- context [?a =? ?b] =>
      first [ replace (a =? b) with true by (symmetry; apply N.eqb_eq; lia)
            | replace (a =? b) with false by (symmetry; apply N.eqb_neq; lia) ]
  end.

Ltac eval_lits :=
  repeat match goal with
  | |- context [lit ?x] =>
      let v := eval vm_compute in (lit x) in change (lit x) with v
  end.

(** ** No operation of the body raises *)

Lemma index_0_cons {A} (x : A) (s : list A) : index (x :: s) 0 = Ok x.
Proof. reflexivity. Qed.

Lemma index_1_cons {A} (x y : A) (s : list A) : index (x :: y :: s) 1 = Ok y.
Proof. reflexivity. Qed.

Lemma skip_length_prefix_ok (raw : str) :
  exists chunk, skip_length_prefix raw = Ok chunk.
Proof.
  unfold skip_length_prefix. destruct raw as [|c raw].
  - cbn. eauto.
  - cbn [truthy]. rewrite index_0_cons.
    destruct (c =? 0x81); [eauto|]. destruct (c <? 128); eauto.
Qed.

Lemma drop_artifact_ok ucd (chunk : str) :
  exists chunk', drop_artifact ucd chunk = Ok chunk'.
Proof.
  unfold drop_artifact.
  destruct (2 <? len chunk)%Z eqn:L; [|eauto].
  destruct chunk as [|c0 [|c1 rest]].
  - discriminate L.
  - discriminate L.
  - rewrite index_0_cons, index_1_cons.
    destruct (islower ucd c0); [|eauto]. destruct (isupper ucd c1); eauto.
Qed.

Lemma modern_chunk_ok ucd (text : str) :
  exists chunk, modern_chunk ucd text = Ok chunk.
Proof.
  unfold modern_chunk.
  destruct (skip_length_prefix_ok
              (slice text (find text (lit "+") + 1)
                     (find text (lit "+") + 1000))) as [c ->].
  destruct (drop_artifact_ok ucd (cut_markers c)) as [c' ->]. eauto.
Qed.

Lemma method1_ok ucd (text : str) :
  exists r, method1 ucd text = Ok r.
Proof.
  unfold method1. destruct (contains (lit "+") text); [|eauto].
  destruct (modern_chunk_ok ucd text) as [c ->].
  destruct (3 <? len c)%Z; eauto.
Qed.

Lemma method2_run ucd (text : str) (g : py_env) :
  method2 ucd text g
  = (Ok (streamtyped_text ucd text), env_after_method2 text g).
Proof.
  unfold method2, streamtyped_text, env_after_method2.
  destruct (contains (lit "streamtyped") text); [|reflexivity].
  unfold bind, modify, lift, ret. cbn [split truthy lit].
  change (split text (lit "NSString"))
    with (Ok (split_aux (lit "NSString") O [] text)).
  cbv beta iota.
  destruct (nsstring_loop ucd _); [reflexivity|].
  destruct (re_findall_url text) as [|u us]; reflexivity.
Qed.

Lemma decode_body_run ucd (blob : bytes) (g : py_env) :
  decode_body ucd blob g
  = (Ok (body_text ucd (utf8_decode_ignore blob)),
     env_after_body ucd (utf8_decode_ignore blob) g).
Proof.
  unfold decode_body, body_text, env_after_body.
  set (text := utf8_decode_ignore blob).
  destruct (method1_ok ucd text) as [r Hr].
  unfold bind at 1. unfold lift. rewrite Hr.
  destruct r as [chunk|]; [reflexivity|].
  unfold bind. rewrite method2_run.
  destruct (streamtyped_text ucd text); reflexivity.
Qed.

Lemma decode_run ucd (b : bytes) (g : py_env) :
  b <> [] ->
  decode_attributed_body ucd (Some b) g
  = (Ok (body_text ucd (utf8_decode_ignore b)),
     env_after_body ucd (utf8_decode_ignore b) g).
Proof.
  intros Hb. unfold decode_attributed_body.
  destruct b as [|x b]; [congruence|]. cbn [truthy negb].
  unfold try_except. rewrite decode_body_run. reflexivity.
Qed.

(** ** C1: the decoder is total and never raises *)

(** C1. For every input, absent, empty or any byte sequence at all, and in
    every interpreter state, [decode_attributed_body] returns a string and
    raises nothing; on a non-empty blob the body of the [try] already
    returns a string, so that the handler has nothing to catch. The
    decoder being a total function, every call terminates. *)
Theorem decode_total_never_raises :
  forall (ucd : unicode_db) (g : py_env),
    (exists s, decoded ucd None g = Ok s)
    /\ forall blob : bytes,
         (exists s, decoded ucd (Some blob) g = Ok s)
         /\ (exists s, fst (decode_body ucd blob g) = Ok s).
Proof.
  intros ucd g. split.
  - exists (empty_str). reflexivity.
  - intros blob. split.
    + destruct blob as [|x b].
      * exists (empty_str). reflexivity.
      * unfold decoded. rewrite decode_run by discriminate.
        cbn [fst]. eauto.
    + rewrite decode_body_run. cbn [fst]. eauto.
Qed.

(** ** C2: the result depends on the blob alone *)

(** C2. The text decoded from a blob is the same in any two interpreter
    states, so whatever earlier calls did, a call on the same bytes
    returns the same string; and a call leaves the module's global
    untouched. *)
Theorem decode_deterministic :
  forall (ucd : unicode_db) (blob : option bytes) (g1 g2 : py_env),
    decoded ucd blob g1 = decoded ucd blob g2
    /\ decoded ucd blob (snd (decode_attributed_body ucd blob g1))
       = decoded ucd blob g1
    /\ DB_PATH (snd (decode_attributed_body ucd blob g1)) = DB_PATH g1.
Proof.
  intros ucd blob g1 g2.
  assert (Hindep : forall g g', decoded ucd blob g = decoded ucd blob g').
  { intros g g'. unfold decoded. destruct blob as [[|x b]|]; try reflexivity.
    rewrite !decode_run by discriminate. reflexivity. }
  split; [apply Hindep|]. split; [apply Hindep|].
  destruct blob as [[|x b]|]; try reflexivity.
  rewrite decode_run by discriminate. cbn [snd].
  unfold env_after_body, env_after_method2, import_module.
  destruct (method1 ucd _) as [[c|]|e]; try reflexivity;
    destruct (contains _ _); try reflexivity;
    destruct (existsb _ _); reflexivity.
Qed.

(** ** C3: no blob, no work *)

(** C3. For an absent blob and for a blob of length zero the decoder
    returns the empty string at once: neither strategy runs, and the
    interpreter state is the one the call started in. *)
Theorem decode_absent_or_empty :
  forall (ucd : unicode_db) (g : py_env),
    decode_attributed_body ucd None g = (Ok (empty_str), g)
    /\ decode_attributed_body ucd (Some []) g = (Ok (empty_str), g).
Proof. intros ucd g. split; reflexivity. Qed.

(** ** C6: the long-message sample *)

Lemma utf8_decode_ignore_nil_inv (blob : bytes) :
  utf8_decode_ignore blob <> [] -> blob <> [].
Proof. intros H ->. apply H. reflexivity. Qed.

(** C6. Every blob whose text view is
    [junk+] U+0081 U+0000 U+0000 [Hello world__kIMextra] decodes to
    [Hello world]: the run after [+] starts with the character 0x81, its
    first three characters are skipped, and the payload is cut where
    [__kIM] first occurs. *)
Theorem decode_long_sample :
  forall (ucd : unicode_db) (g : py_env) (blob : bytes),
    utf8_decode_ignore blob = sample_long_view ->
    let text := utf8_decode_ignore blob in
    let raw := slice text (find text (lit "+") + 1)
                     (find text (lit "+") + 1000) in
    decoded ucd (Some blob) g = Ok (lit "Hello world")
    /\ index raw 0 = Ok 0x81
    /\ skip_length_prefix raw = Ok (slice_from raw 3)
    /\ slice_from raw 3 = lit "Hello world__kIMextra"
    /\ find (slice_from raw 3) (lit "__kIM") = 11%Z
    /\ cut_markers (slice_from raw 3) = lit "Hello world".
Proof.
  intros ucd g blob Hview text raw. subst raw text. rewrite Hview.
  split.
  - unfold decoded. rewrite decode_run.
    + rewrite Hview. cbn [fst]. vm_compute. reflexivity.
    + apply utf8_decode_ignore_nil_inv. rewrite Hview. discriminate.
  - vm_compute. repeat split; reflexivity.
Qed.

Lemma decode_long_sample_witness :
  utf8_decode_ignore sample_long_blob = sample_long_view
  /\ decoded sample_ucd (Some sample_long_blob) env0 = Ok (lit "Hello world").
Proof.
  split.
  - vm_compute. reflexivity.
  - apply (decode_long_sample sample_ucd env0 sample_long_blob).
    vm_compute. reflexivity.
Defined.

(** ** Occurrences of a substring *)

Lemma startswith_app (s p : str) :
  startswith s p = true <-> exists post, s = p ++ post.
Proof.
  revert s. induction p as [|x p IH]; intros s.
  - cbn. split; eauto.
  - destruct s as [|y s]; cbn.
    + split; [discriminate|]. intros [post H]. discriminate H.
    + rewrite andb_true_iff, N.eqb_eq, IH. split.
      * intros [-> [post ->]]. eauto.
      * intros [post H]. injection H as -> ->. eauto.
Qed.

Lemma find_nat_unfold (s sub : str) :
  find_nat s sub
  = if startswith s sub then Some O
    else match s with
         | [] => None
         | _ :: s' => option_map S (find_nat s' sub)
         end.
Proof. destruct s; reflexivity. Qed.

(** [find_nat] gives a position at which [sub] occurs. *)
Lemma find_nat_occurs (s sub : str) (i : nat) :
  find_nat s sub = Some i ->
  exists post, s = firstn i s ++ sub ++ post.
Proof.
  revert i. induction s as [|c s IH]; intros i; rewrite find_nat_unfold.
  - destruct (startswith [] sub) eqn:E; [|discriminate].
    intros [= <-]. apply startswith_app in E. exact E.
  - destruct (startswith (c :: s) sub) eqn:E.
    + intros [= <-]. apply startswith_app in E. exact E.
    + destruct (find_nat s sub) as [j|] eqn:F; [|discriminate].
      intros [= <-]. destruct (IH j eq_refl) as [post Hp].
      exists post. cbn [firstn app]. f_equal. exact Hp.
Qed.

(** No occurrence of [sub] starts before the position [find_nat] gives. *)
Lemma find_nat_first (s sub : str) (i : nat) :
  find_nat s sub = Some i ->
  forall pre post, s = pre ++ sub ++ post -> (i <= List.length pre)%nat.
Proof.
  revert i. induction s as [|c s IH]; intros i; rewrite find_nat_unfold.
  - destruct (startswith [] sub); [|discriminate].
    intros [= <-] pre post _. lia.
  - destruct (startswith (c :: s) sub) eqn:E.
    + intros [= <-] pre post _. lia.
    + destruct (find_nat s sub) as [j|] eqn:F; [|discriminate].
      intros [= <-] pre post Hs. destruct pre as [|x pre].
      * exfalso. cbn [app] in Hs.
        assert (startswith (c :: s) sub = true)
          by (apply startswith_app; eauto).
        congruence.
      * cbn [app] in Hs. injection Hs as _ Hs.
        cbn [List.length]. specialize (IH j eq_refl pre post Hs). lia.
Qed.

Lemma find_nat_none (s sub : str) :
  find_nat s sub = None ->
  forall pre post, s <> pre ++ sub ++ post.
Proof.
  induction s as [|c s IH]; rewrite find_nat_unfold.
  - destruct (startswith [] sub) eqn:E; [discriminate|].
    intros _ pre post Hs. destruct pre; cbn [app] in Hs.
    + assert (startswith [] sub = true) by (apply startswith_app; eauto).
      congruence.
    + discriminate Hs.
  - destruct (startswith (c :: s) sub) eqn:E; [discriminate|].
    destruct (find_nat s sub) as [j|] eqn:F; [discriminate|].
    intros _ pre post Hs. destruct pre as [|x pre]; cbn [app] in Hs.
    + assert (startswith (c :: s) sub = true)
        by (apply startswith_app; eauto).
      congruence.
    + injection Hs as _ Hs. exact (IH eq_refl pre post Hs).
Qed.

Lemma find_nat_bound (s sub : str) (i : nat) :
  find_nat s sub = Some i -> (i <= List.length s)%nat.
Proof.
  revert i. induction s as [|c s IH]; intros i; rewrite find_nat_unfold.
  - destruct (startswith [] sub); [|discriminate]. intros [= <-]. lia.
  - destruct (startswith (c :: s) sub).
    + intros [= <-]. lia.
    + destruct (find_nat s sub) as [j|]; [|discriminate].
      intros [= <-]. specialize (IH j eq_refl). cbn [List.length]. lia.
Qed.

(** [chunk[:chunk.find(cutoff)]] when [cutoff in chunk]. *)
Lemma cut_at_found (chunk cutoff : str) (i : nat) :
  find_nat chunk cutoff = Some i -> cut_at chunk cutoff = firstn i chunk.
Proof.
  intros F. unfold cut_at, contains, find, slice_to, norm_index. rewrite F.
  pose proof (find_nat_bound _ _ _ F) as B.
  destruct (Z.ltb_spec (Z.of_nat i) 0); [lia|].
  f_equal. unfold len. lia.
Qed.

Lemma cut_at_absent (chunk cutoff : str) :
  find_nat chunk cutoff = None -> cut_at chunk cutoff = chunk.
Proof. intros F. unfold cut_at, contains. rewrite F. reflexivity. Qed.

Lemma is_prefix_refl (s : str) : is_prefix s s.
Proof. exists []. symmetry. apply app_nil_r. Qed.

Lemma is_prefix_trans (a b c : str) :
  is_prefix a b -> is_prefix b c -> is_prefix a c.
Proof.
  intros [r1 ->] [r2 ->]. exists (r1 ++ r2). symmetry. apply app_assoc.
Qed.

Lemma is_prefix_length (p s : str) :
  is_prefix p s -> (List.length p <= List.length s)%nat.
Proof. intros [rest ->]. rewrite length_app. lia. Qed.

Lemma cut_at_prefix (chunk cutoff : str) : is_prefix (cut_at chunk cutoff) chunk.
Proof.
  destruct (find_nat chunk cutoff) as [i|] eqn:F.
  - rewrite (cut_at_found _ _ _ F). exists (skipn i chunk).
    symmetry. apply firstn_skipn.
  - rewrite (cut_at_absent _ _ F). apply is_prefix_refl.
Qed.

Lemma fold_cut_at_prefix (tokens : list str) (chunk : str) :
  is_prefix (fold_left cut_at tokens chunk) chunk.
Proof.
  revert chunk. induction tokens as [|t tokens IH]; intros chunk.
  - apply is_prefix_refl.
  - cbn [fold_left].
    exact (is_prefix_trans _ _ _ (IH _) (cut_at_prefix chunk t)).
Qed.

Lemma cut_at_before_occurrence (pre cutoff post : str) :
  is_prefix (cut_at (pre ++ cutoff ++ post) cutoff) pre.
Proof.
  destruct (find_nat (pre ++ cutoff ++ post) cutoff) as [i|] eqn:F.
  - rewrite (cut_at_found _ _ _ F).
    pose proof (find_nat_first _ _ _ F pre post eq_refl) as Hi.
    rewrite firstn_app.
    replace (i - List.length pre)%nat with O by lia.
    cbn [firstn]. rewrite app_nil_r.
    exists (skipn i pre). symmetry. apply firstn_skipn.
  - exfalso. exact (find_nat_none _ _ F pre post eq_refl).
Qed.

Lemma cut_at_cases (chunk cutoff : str) :
  cut_at chunk cutoff = chunk
  \/ exists post, chunk = cut_at chunk cutoff ++ cutoff ++ post.
Proof.
  destruct (find_nat chunk cutoff) as [i|] eqn:F.
  - right. rewrite (cut_at_found _ _ _ F). exact (find_nat_occurs _ _ _ F).
  - left. exact (cut_at_absent _ _ F).
Qed.

(** ** C9: truncation at the markers *)

(** C9. The markers are the six tokens in the order given; the loop cuts
    the chunk at the first, then what is left at the second, and so on;
    each cut leaves the chunk as it is or ends it right before an
    occurrence of the token, and never behind the start of any occurrence
    of it; each cut and the whole loop yield a prefix of what they were
    given, so the chunk never grows. *)
Theorem cut_markers_prefix :
  forall payload : str,
    cutoffs = [lit "__kIM"; lit "NSNumber"; lit "NSValue";
               lit "NSDictionary"; [0x02]; [0x86]]
    /\ cut_markers payload
       = cut_at (cut_at (cut_at (cut_at (cut_at (cut_at payload
           (lit "__kIM")) (lit "NSNumber")) (lit "NSValue"))
           (lit "NSDictionary")) [0x02]) [0x86]
    /\ is_prefix (cut_markers payload) payload
    /\ (len (cut_markers payload) <= len payload)%Z
    /\ (forall chunk cutoff : str,
          is_prefix (cut_at chunk cutoff) chunk
          /\ (len (cut_at chunk cutoff) <= len chunk)%Z
          /\ (cut_at chunk cutoff = chunk
              \/ exists post, chunk = cut_at chunk cutoff ++ cutoff ++ post))
    /\ (forall pre cutoff post : str,
          is_prefix (cut_at (pre ++ cutoff ++ post) cutoff) pre).
Proof.
  intros payload.
  assert (P : is_prefix (cut_markers payload) payload)
    by apply fold_cut_at_prefix.
  repeat split.
  - exact P.
  - apply is_prefix_length in P. unfold len. lia.
  - apply cut_at_prefix.
  - pose proof (is_prefix_length _ _ (cut_at_prefix chunk cutoff)).
    unfold len. lia.
  - apply cut_at_cases.
  - apply cut_at_before_occurrence.
Qed.

(** ** Method 1 and what follows it *)

Lemma contains_nonempty (sub s : str) :
  sub <> [] -> contains sub s = true -> s <> [].
Proof.
  intros Hsub H ->. destruct sub as [|x sub]; [congruence|]. discriminate H.
Qed.

Lemma view_contains_blob_nonempty (sub : str) (blob : bytes) :
  sub <> [] -> contains sub (utf8_decode_ignore blob) = true -> blob <> [].
Proof.
  intros Hsub H. apply utf8_decode_ignore_nil_inv.
  exact (contains_nonempty _ _ Hsub H).
Qed.

Lemma legacy_then_empty_run ucd (text : str) (g : py_env) :
  legacy_then_empty ucd text g
  = (Ok (match streamtyped_text ucd text with
         | Some found => found
         | None => empty_str
         end), env_after_method2 text g).
Proof.
  unfold legacy_then_empty, bind. rewrite method2_run. reflexivity.
Qed.

(** ** The loop over the [NSString] segments *)

Lemma slice_to_firstn {A} (s : list A) (n : Z) :
  (0 <= n)%Z -> slice_to s n = firstn (Z.to_nat n) s.
Proof.
  intros Hn. unfold slice_to, norm_index.
  destruct (Z.ltb_spec n 0); [lia|].
  destruct (Z.le_gt_cases n (len s)).
  - rewrite Z.min_l by lia. reflexivity.
  - rewrite Z.min_r by lia. unfold len in *.
    rewrite Nat2Z.id. rewrite !firstn_all2 by lia. reflexivity.
Qed.

Lemma len_slice_to {A} (s : list A) (n : Z) :
  (0 <= n)%Z -> (len (slice_to s n) <= n)%Z.
Proof.
  intros Hn. rewrite slice_to_firstn by exact Hn. unfold len.
  rewrite length_firstn. lia.
Qed.

(** The loop returns at the first part whose cleaned form qualifies. *)
Lemma nsstring_loop_first ucd (before after : list str) (seg : str) :
  forallb (fun p => negb (qualifies (clean_part ucd p))) before = true ->
  qualifies (clean_part ucd seg) = true ->
  nsstring_loop ucd (before ++ seg :: after)
  = Some (slice_to (clean_part ucd seg) 500).
Proof.
  intros Hb Hs. induction before as [|p before IH]; cbn [app nsstring_loop].
  - rewrite Hs. reflexivity.
  - cbn [forallb] in Hb. apply andb_true_iff in Hb as [Hp Hb].
    apply negb_true_iff in Hp. rewrite Hp. exact (IH Hb).
Qed.

(** What the loop returns comes from a part that qualifies. *)
Lemma nsstring_loop_some ucd (parts : list str) (r : str) :
  nsstring_loop ucd parts = Some r ->
  exists part, In part parts
               /\ qualifies (clean_part ucd part) = true
               /\ r = slice_to (clean_part ucd part) 500.
Proof.
  induction parts as [|p parts IH]; cbn [nsstring_loop]; [discriminate|].
  destruct (qualifies (clean_part ucd p)) eqn:Q.
  - intros [= <-]. exists p. cbn [In]. auto.
  - intros H. destruct (IH H) as (part & Hin & Hq & Hr).
    exists part. cbn [In]. auto.
Qed.

(** The decoder's result when Method 1 yields nothing and the loop
    returns. *)
Lemma decode_legacy_segment ucd (g : py_env) (blob : bytes)
      (parts : list str) (r : str) :
  method1 ucd (utf8_decode_ignore blob) = Ok None ->
  contains (lit "streamtyped") (utf8_decode_ignore blob) = true ->
  split (utf8_decode_ignore blob) (lit "NSString") = Ok parts ->
  nsstring_loop ucd (slice_from parts 1) = Some r ->
  decoded ucd (Some blob) g = Ok r.
Proof.
  intros Hm Hst Hsp Hloop. unfold decoded.
  rewrite decode_run
    by (apply (view_contains_blob_nonempty (lit "streamtyped"));
        [discriminate|exact Hst]).
  cbn [fst]. unfold body_text, streamtyped_text. rewrite Hm, Hst.
  change (split (utf8_decode_ignore blob) (lit "NSString"))
    with (Ok (split_aux (lit "NSString") O [] (utf8_decode_ignore blob)))
    in Hsp.
  injection Hsp as <-. rewrite Hloop. reflexivity.
Qed.

(** ** C10: at most 500 characters from a segment *)

(** C10. When Method 1 yields nothing, the text view holds [streamtyped]
    and the loop over the segments returns, the decoder returns what the
    loop returned: the first 500 characters of the cleaned form of a
    qualifying segment, hence at most 500 characters. *)
Theorem legacy_segment_at_most_500 :
  forall (ucd : unicode_db) (g : py_env) (blob : bytes)
         (parts : list str) (r : str),
    method1 ucd (utf8_decode_ignore blob) = Ok None ->
    contains (lit "streamtyped") (utf8_decode_ignore blob) = true ->
    split (utf8_decode_ignore blob) (lit "NSString") = Ok parts ->
    nsstring_loop ucd (slice_from parts 1) = Some r ->
    decoded ucd (Some blob) g = Ok r
    /\ (len r <= 500)%Z
    /\ exists part : str,
         In part (slice_from parts 1)
         /\ qualifies (clean_part ucd part) = true
         /\ r = firstn 500 (clean_part ucd part).
Proof.
  intros ucd g blob parts r Hm Hst Hsp Hloop.
  split; [exact (decode_legacy_segment ucd g blob parts r Hm Hst Hsp Hloop)|].
  destruct (nsstring_loop_some ucd _ _ Hloop) as (part & Hin & Hq & Hr).
  split.
  - rewrite Hr. apply len_slice_to. lia.
  - exists part. split; [exact Hin|]. split; [exact Hq|].
    rewrite Hr. apply (slice_to_firstn _ 500). lia.
Qed.

Lemma legacy_segment_at_most_500_witness :
  decoded sample_ucd (Some sample_long_segment_blob) env0
  = Ok (repeat 0x61 500)
  /\ (len (repeat 0x61 500) <= 500)%Z
  /\ exists part : str,
       In part (slice_from [lit "streamtyped"; sample_long_segment] 1)
       /\ qualifies (clean_part sample_ucd part) = true
       /\ repeat 0x61 500 = firstn 500 (clean_part sample_ucd part).
Proof.
  apply (legacy_segment_at_most_500 sample_ucd env0 sample_long_segment_blob
           [lit "streamtyped"; sample_long_segment] (repeat 0x61 500));
    vm_compute; reflexivity.
Defined.

(** ** C4: the first qualifying segment *)

(** C4, counterexample to returning the cleaned segment itself: the blob
    [streamtypedNSString] followed by 501 letters [a] reaches the loop,
    its one segment cleans to the 501 letters and qualifies, and the
    decoder returns 500 of them, not the cleaned segment. *)
Lemma legacy_segment_not_returned_whole :
  contains (lit "streamtyped") (utf8_decode_ignore sample_long_segment_blob)
  = true
  /\ method1 sample_ucd (utf8_decode_ignore sample_long_segment_blob)
     = Ok None
  /\ split (utf8_decode_ignore sample_long_segment_blob) (lit "NSString")
     = Ok [lit "streamtyped"; sample_long_segment]
  /\ clean_part sample_ucd sample_long_segment = sample_long_segment
  /\ qualifies (clean_part sample_ucd sample_long_segment) = true
  /\ decoded sample_ucd (Some sample_long_segment_blob) env0
     = Ok (repeat 0x61 500)
  /\ decoded sample_ucd (Some sample_long_segment_blob) env0
     <> Ok (clean_part sample_ucd sample_long_segment).
Proof.
  repeat split; try (vm_compute; reflexivity).
  vm_compute. discriminate.
Qed.

(** C4, amended. When Method 1 yields nothing and the text view holds
    [streamtyped], the first segment after the header whose cleaned form
    is longer than 10 characters and does not begin with [+] ends the
    loop, and the decoder returns the first 500 characters of that
    cleaned form. *)
Theorem legacy_first_qualifying_segment :
  forall (ucd : unicode_db) (g : py_env) (blob : bytes)
         (parts before after : list str) (seg : str),
    method1 ucd (utf8_decode_ignore blob) = Ok None ->
    contains (lit "streamtyped") (utf8_decode_ignore blob) = true ->
    split (utf8_decode_ignore blob) (lit "NSString") = Ok parts ->
    slice_from parts 1 = before ++ seg :: after ->
    forallb (fun p => negb (qualifies (clean_part ucd p))) before = true ->
    qualifies (clean_part ucd seg) = true ->
    nsstring_loop ucd (slice_from parts 1)
    = Some (firstn 500 (clean_part ucd seg))
    /\ decoded ucd (Some blob) g = Ok (firstn 500 (clean_part ucd seg)).
Proof.
  intros ucd g blob parts before after seg Hm Hst Hsp Hparts Hb Hq.
  assert (Hloop : nsstring_loop ucd (slice_from parts 1)
                  = Some (firstn 500 (clean_part ucd seg))).
  { rewrite Hparts, (nsstring_loop_first ucd before after seg Hb Hq).
    f_equal. apply (slice_to_firstn _ 500). lia. }
  split; [exact Hloop|].
  exact (decode_legacy_segment ucd g blob parts _ Hm Hst Hsp Hloop).
Qed.

Lemma legacy_first_qualifying_segment_witness :
  nsstring_loop sample_ucd
    (slice_from [lit "streamtyped"; lit "abc";
                 lit "ZZZSome message text hereNSDictionary..."] 1)
  = Some (firstn 500 (clean_part sample_ucd
                        (lit "ZZZSome message text hereNSDictionary...")))
  /\ decoded sample_ucd (Some sample_legacy_blob) env0
     = Ok (firstn 500 (clean_part sample_ucd
                         (lit "ZZZSome message text hereNSDictionary..."))).
Proof.
  apply (legacy_first_qualifying_segment sample_ucd env0 sample_legacy_blob
           [lit "streamtyped"; lit "abc";
            lit "ZZZSome message text hereNSDictionary..."]
           [lit "abc"] []
           (lit "ZZZSome message text hereNSDictionary..."));
    vm_compute; reflexivity.
Defined.

(** ** The text view of valid and of invalid bytes *)

Lemma to_N_byte_of_N (n : N) : n < 256 -> Byte.to_N (byte_of_N n) = n.
Proof.
  intros H. unfold byte_of_N. destruct (Byte.of_N n) as [b|] eqn:E.
  - apply Byte.to_of_N. exact E.
  - apply Byte.of_N_None_iff in E. lia.
Qed.

Lemma utf8_decode_ignore_cons (b1 : byte) (r1 : bytes) :
  utf8_decode_ignore (b1 :: r1) =
    let ch := Byte.to_N b1 in
    if ch <? 0x80 then ch :: utf8_decode_ignore r1
    else if ch <? 0xC2 then utf8_decode_ignore r1
    else if ch <? 0xE0 then
      match r1 with
      | [] => []
      | b2 :: r2 =>
        let ch2 := Byte.to_N b2 in
        if is_continuation ch2 then cp2 ch ch2 :: utf8_decode_ignore r2
        else utf8_decode_ignore r1
      end
    else if ch <? 0xF0 then
      match r1 with
      | [] => []
      | b2 :: r2 =>
        let ch2 := Byte.to_N b2 in
        if bad_second3 ch ch2 then utf8_decode_ignore r1
        else
          match r2 with
          | [] => []
          | b3 :: r3 =>
            let ch3 := Byte.to_N b3 in
            if is_continuation ch3
            then cp3 ch ch2 ch3 :: utf8_decode_ignore r3
            else utf8_decode_ignore r2
          end
      end
    else if ch <? 0xF5 then
      match r1 with
      | [] => []
      | b2 :: r2 =>
        let ch2 := Byte.to_N b2 in
        if bad_second4 ch ch2 then utf8_decode_ignore r1
        else
          match r2 with
          | [] => []
          | b3 :: r3 =>
            let ch3 := Byte.to_N b3 in
            if negb (is_continuation ch3) then utf8_decode_ignore r2
            else
              match r3 with
              | [] => []
              | b4 :: r4 =>
                let ch4 := Byte.to_N b4 in
                if is_continuation ch4
                then cp4 ch ch2 ch3 ch4 :: utf8_decode_ignore r4
                else utf8_decode_ignore r3
              end
          end
      end
    else utf8_decode_ignore r1.
Proof. reflexivity. Qed.

Lemma decode_encode_char (c : char) (rest : bytes) :
  is_scalar c = true ->
  utf8_decode_ignore (utf8_encode_char c ++ rest)
  = c :: utf8_decode_ignore rest.
Proof.
  intros Hs. unfold is_scalar in Hs.
  assert (Hc : c < 0xD800 \/ 0xE000 <= c < 0x110000).
  { apply orb_true_iff in Hs as [H|H].
    - left. apply N.ltb_lt. exact H.
    - right. apply andb_true_iff in H as [H1 H2].
      apply N.leb_le in H1. apply N.ltb_lt in H2. lia. }
  clear Hs. unfold utf8_encode_char.
  pose proof (N.div_mod c 64 ltac:(lia)) as D1.
  pose proof (N.mod_lt c 64 ltac:(lia)) as M1.
  pose proof (N.div_mod (c / 64) 64 ltac:(lia)) as D2.
  pose proof (N.mod_lt (c / 64) 64 ltac:(lia)) as M2.
  pose proof (N.div_mod (c / 4096) 64 ltac:(lia)) as D3.
  pose proof (N.mod_lt (c / 4096) 64 ltac:(lia)) as M3.
  replace (c / 64 / 64) with (c / 4096) in D2
    by (rewrite N.Div0.div_div; reflexivity).
  replace (c / 4096 / 64) with (c / 262144) in D3
    by (rewrite N.Div0.div_div; reflexivity).
  set (q1 := c / 64) in *. set (r1 := c mod 64) in *.
  set (q2 := c / 4096) in *. set (r2 := q1 mod 64) in *.
  set (q3 := c / 262144) in *. set (r3 := q2 mod 64) in *.
  destruct (N.ltb_spec c 0x80) as [L1|L1].
  - cbn [app]. rewrite utf8_decode_ignore_cons. cbv zeta.
    rewrite to_N_byte_of_N by lia. bool_arith. reflexivity.
  - destruct (N.ltb_spec c 0x800) as [L2|L2].
    + cbn [app]. rewrite utf8_decode_ignore_cons. cbv zeta.
      rewrite !to_N_byte_of_N by lia. unfold is_continuation. bool_arith.
      cbn [andb]. f_equal. unfold cp2. rewrite !N.shiftl_mul_pow2.
      change (2 ^ 6) with 64. lia.
    + destruct (N.ltb_spec c 0x10000) as [L3|L3].
      * cbn [app]. rewrite utf8_decode_ignore_cons. cbv zeta.
        rewrite !to_N_byte_of_N by lia.
        unfold bad_second3, is_continuation. bool_arith.
        cbn [andb negb orb].
        destruct (N.ltb_spec (128 + r2) 160).
        -- bool_arith. cbn [andb]. f_equal. unfold cp3.
           rewrite !N.shiftl_mul_pow2.
           change (2 ^ 6) with 64. change (2 ^ 12) with 4096. lia.
        -- bool_arith. cbn [andb]. f_equal. unfold cp3.
           rewrite !N.shiftl_mul_pow2.
           change (2 ^ 6) with 64. change (2 ^ 12) with 4096. lia.
      * cbn [app]. rewrite utf8_decode_ignore_cons. cbv zeta.
        rewrite !to_N_byte_of_N by lia.
        unfold bad_second4, is_continuation. bool_arith.
        cbn [andb negb orb].
        destruct (N.ltb_spec (128 + r3) 144).
        -- bool_arith. cbn [andb negb]. f_equal. unfold cp4.
           rewrite !N.shiftl_mul_pow2.
           change (2 ^ 6) with 64. change (2 ^ 12) with 4096.
           change (2 ^ 18) with 262144. lia.
        -- bool_arith. cbn [andb negb]. f_equal. unfold cp4.
           rewrite !N.shiftl_mul_pow2.
           change (2 ^ 6) with 64. change (2 ^ 12) with 4096.
           change (2 ^ 18) with 262144. lia.
Qed.

Lemma decode_encode (s : str) (rest : bytes) :
  forallb is_scalar s = true ->
  utf8_decode_ignore (utf8_encode s ++ rest) = s ++ utf8_decode_ignore rest.
Proof.
  induction s as [|c s IH]; intros Hs.
  - reflexivity.
  - cbn [forallb] in Hs. apply andb_true_iff in Hs as [Hc Hs].
    cbn [utf8_encode flat_map]. rewrite <- app_assoc.
    rewrite (decode_encode_char c _ Hc). cbn [app]. f_equal.
    exact (IH Hs).
Qed.

Lemma decode_invalid_start (b : byte) (rest : bytes) :
  invalid_start b = true ->
  utf8_decode_ignore (b :: rest) = utf8_decode_ignore rest.
Proof.
  unfold invalid_start. intros H. rewrite utf8_decode_ignore_cons. cbv zeta.
  apply orb_true_iff in H as [H|H].
  - apply andb_true_iff in H as [H1 H2].
    apply N.leb_le in H1. apply N.ltb_lt in H2.
    bool_arith. reflexivity.
  - apply N.leb_le in H. bool_arith. reflexivity.
Qed.

(** ** C5: no placeholder at an invalid byte *)


(** ** C8: the URL fallback *)

Lemma takewhile_dropwhile {A} (p : A -> bool) (l : list A) :
  l = takewhile p l ++ dropwhile p l.
Proof.
  induction l as [|x l IH]; [reflexivity|]. cbn.
  destruct (p x); [|reflexivity]. cbn. f_equal. exact IH.
Qed.

Lemma forallb_takewhile {A} (p : A -> bool) (l : list A) :
  forallb p (takewhile p l) = true.
Proof.
  induction l as [|x l IH]; [reflexivity|]. cbn.
  destruct (p x) eqn:E; [|reflexivity]. cbn. rewrite E. exact IH.
Qed.

Lemma dropwhile_stops (l : str) : stops (dropwhile url_char l).
Proof.
  induction l as [|x l IH]; [exact I|]. cbn.
  destruct (url_char x) eqn:E; [exact IH|]. exact E.
Qed.

Lemma takewhile_run (body post : str) :
  forallb url_char body = true -> stops post ->
  takewhile url_char (body ++ post) = body.
Proof.
  intros Hb Hp. induction body as [|x body IH].
  - destruct post as [|c post]; [reflexivity|]. cbn in Hp |- *.
    rewrite Hp. reflexivity.
  - cbn in Hb |- *. apply andb_true_iff in Hb as [Hx Hb]. rewrite Hx.
    f_equal. exact (IH Hb).
Qed.

Lemma startswith_skipn (s p : str) :
  startswith s p = true -> s = p ++ skipn (List.length p) s.
Proof.
  intros H. apply startswith_app in H as [post ->].
  rewrite skipn_app, skipn_all, Nat.sub_diag. reflexivity.
Qed.

Lemma match_url_tail_sound (s t : str) :
  match_url_tail s = Some t ->
  exists body, body <> [] /\ forallb url_char body = true
               /\ t = lit "://" ++ body
               /\ exists post, s = t ++ post /\ stops post.
Proof.
  unfold match_url_tail.
  destruct (startswith s (lit "://")) eqn:E; [|discriminate].
  apply startswith_skipn in E.
  change (List.length (lit "://")) with 3%nat in E.
  destruct (takewhile url_char (skipn 3 s)) as [|c body] eqn:T; [discriminate|].
  intros [= <-]. exists (c :: body). split; [discriminate|]. split.
  - rewrite <- T. apply forallb_takewhile.
  - split; [reflexivity|]. exists (dropwhile url_char (skipn 3 s)). split.
    + etransitivity; [exact E|].
      rewrite (takewhile_dropwhile url_char (skipn 3 s)) at 1.
      rewrite T. reflexivity.
    + apply dropwhile_stops.
Qed.

Lemma match_url_tail_complete (body post : str) :
  body <> [] -> forallb url_char body = true -> stops post ->
  match_url_tail (lit "://" ++ body ++ post) = Some (lit "://" ++ body).
Proof.
  intros Hne Hb Hp. unfold match_url_tail. eval_lits.
  cbn [app startswith N.eqb Pos.eqb andb skipn].
  rewrite (takewhile_run body post Hb Hp).
  destruct body; [congruence|reflexivity].
Qed.

Lemma match_url_sound (s m : str) :
  match_url s = Some m -> url_match s m.
Proof.
  unfold match_url.
  destruct (startswith s (lit "http")) eqn:E; [|discriminate].
  apply startswith_skipn in E.
  change (List.length (lit "http")) with 4%nat in E.
  set (r := skipn 4 s) in *.
  destruct (if startswith r (lit "s")
            then option_map (app (lit "s")) (match_url_tail (skipn 1 r))
            else None) as [m1|] eqn:S1.
  - intros [= <-].
    destruct (startswith r (lit "s")) eqn:E1; [|discriminate].
    apply startswith_skipn in E1.
    change (List.length (lit "s")) with 1%nat in E1.
    destruct (match_url_tail (skipn 1 r)) as [t|] eqn:T; [|discriminate].
    injection S1 as <-.
    destruct (match_url_tail_sound _ _ T)
      as (body & Hne & Hb & -> & post & Hs & Hp).
    split.
    + exists body. split; [exact Hne|]. split; [exact Hb|]. right. reflexivity.
    + exists post. split; [|exact Hp]. rewrite E, E1, Hs.
      rewrite <- !app_assoc. reflexivity.
  - destruct (match_url_tail r) as [t|] eqn:T; [|discriminate].
    intros [= <-].
    destruct (match_url_tail_sound _ _ T)
      as (body & Hne & Hb & -> & post & Hs & Hp).
    split.
    + exists body. split; [exact Hne|]. split; [exact Hb|]. left. reflexivity.
    + exists post. split; [|exact Hp]. rewrite E, Hs.
      rewrite <- !app_assoc. reflexivity.
Qed.

Lemma match_url_complete (s m : str) :
  url_match s m -> match_url s = Some m.
Proof.
  intros [(body & Hne & Hb & Hm) (post & -> & Hp)].
  pose proof (match_url_tail_complete body post Hne Hb Hp) as T.
  destruct Hm as [-> | ->]; unfold match_url.
  - change (lit "http://" ++ body) with (lit "http" ++ lit "://" ++ body).
    rewrite <- !app_assoc.
    change (startswith (lit "http" ++ lit "://" ++ body ++ post) (lit "http"))
      with true.
    change (skipn 4 (lit "http" ++ lit "://" ++ body ++ post))
      with (lit "://" ++ body ++ post).
    change (startswith (lit "://" ++ body ++ post) (lit "s")) with false.
    cbv iota. rewrite T. reflexivity.
  - change (lit "https://" ++ body)
      with (lit "http" ++ lit "s" ++ lit "://" ++ body).
    rewrite <- !app_assoc.
    change (startswith (lit "http" ++ lit "s" ++ lit "://" ++ body ++ post)
                       (lit "http"))
      with true.
    change (skipn 4 (lit "http" ++ lit "s" ++ lit "://" ++ body ++ post))
      with (lit "s" ++ lit "://" ++ body ++ post).
    change (startswith (lit "s" ++ lit "://" ++ body ++ post) (lit "s"))
      with true.
    change (skipn 1 (lit "s" ++ lit "://" ++ body ++ post))
      with (lit "://" ++ body ++ post).
    cbv iota. rewrite T. reflexivity.
Qed.

Lemma findall_head_first (text m : str) :
  hd_error (re_findall_url text) = Some m <-> first_url text m.
Proof.
  unfold re_findall_url. split.
  - revert m. induction text as [|c s IH]; intros m; cbn [findall_aux].
    + discriminate.
    + destruct (match_url (c :: s)) as [m'|] eqn:E.
      * cbn [hd_error]. intros [= <-]. exists [], (c :: s).
        split; [reflexivity|]. split; [exact (match_url_sound _ _ E)|].
        intros i m'' Hi. cbn in Hi. lia.
      * intros H. destruct (IH m H) as (pre & post & -> & Hm & Hfirst).
        exists (c :: pre), post. split; [reflexivity|]. split; [exact Hm|].
        intros i m' Hi Hu. destruct i as [|i].
        -- cbn [skipn] in Hu. apply match_url_complete in Hu.
           cbn [app] in Hu. congruence.
        -- cbn [skipn app] in Hu. cbn [List.length] in Hi.
           apply (Hfirst i m'); [lia|exact Hu].
  - intros (pre & post & -> & Hm & Hfirst).
    induction pre as [|c pre IH].
    + cbn [app]. apply match_url_complete in Hm.
      destruct post as [|c s]; [discriminate Hm|].
      cbn [findall_aux]. rewrite Hm. reflexivity.
    + cbn [app findall_aux].
      destruct (match_url (c :: pre ++ post)) as [m'|] eqn:E.
      * exfalso. apply (Hfirst O m'); [cbn; lia|].
        apply match_url_sound. exact E.
      * apply IH. intros i m' Hi Hu.
        apply (Hfirst (S i) m'); [cbn; lia|exact Hu].
Qed.

(** C8, counterexample to the URL being returned whenever no segment
    qualifies: the text view
    [streamtyped+ hello https://x.y] holds [streamtyped], has no segment
    after an [NSString] at all, and its first match of the pattern is
    [https://x.y]; yet Method 1 accepts the run after the [+], and the
    decoder returns [hello https://x.y]. *)
Lemma modern_chunk_preempts_url :
  contains (lit "streamtyped") (utf8_decode_ignore sample_preempted_blob)
  = true
  /\ split (utf8_decode_ignore sample_preempted_blob) (lit "NSString")
     = Ok [lit "streamtyped+ hello https://x.y"]
  /\ nsstring_loop sample_ucd
       (slice_from [lit "streamtyped+ hello https://x.y"] 1) = None
  /\ first_url (utf8_decode_ignore sample_preempted_blob) (lit "https://x.y")
  /\ decoded sample_ucd (Some sample_preempted_blob) env0
     = Ok (lit "hello https://x.y")
  /\ decoded sample_ucd (Some sample_preempted_blob) env0
     <> Ok (lit "https://x.y").
Proof.
  split; [vm_compute; reflexivity|]. split; [vm_compute; reflexivity|].
  split; [vm_compute; reflexivity|].
  split; [apply findall_head_first; vm_compute; reflexivity|].
  split; [vm_compute; reflexivity|]. vm_compute. discriminate.
Qed.

(** Where a URL stands, the pattern matches, possibly further than the
    URL at hand. *)
Lemma match_url_at_url (m post : str) :
  is_url m -> exists m', match_url (m ++ post) = Some m'.
Proof.
  intros (body & Hne & Hb & Hm).
  destruct body as [|c body]; [congruence|].
  cbn [forallb] in Hb. apply andb_true_iff in Hb as [Hc _].
  set (run := takewhile url_char ((c :: body) ++ post)).
  set (rest := dropwhile url_char ((c :: body) ++ post)).
  assert (Hsplit : (c :: body) ++ post = run ++ rest)
    by apply takewhile_dropwhile.
  assert (Hrun : run <> []).
  { unfold run. cbn [app takewhile]. rewrite Hc. discriminate. }
  assert (Hall : forallb url_char run = true) by apply forallb_takewhile.
  assert (Hstop : stops rest) by apply dropwhile_stops.
  destruct Hm as [-> | ->].
  - exists (lit "http://" ++ run). apply match_url_complete. split.
    + exists run. auto.
    + exists rest. split; [|exact Hstop].
      rewrite <- !app_assoc. f_equal. exact Hsplit.
  - exists (lit "https://" ++ run). apply match_url_complete. split.
    + exists run. auto.
    + exists rest. split; [|exact Hstop].
      rewrite <- !app_assoc. f_equal. exact Hsplit.
Qed.

(** A text in which the pattern matches somewhere has a first match. *)
Lemma findall_nonempty (pre post m : str) :
  match_url post = Some m ->
  exists url, hd_error (re_findall_url (pre ++ post)) = Some url.
Proof.
  intros Hm. unfold re_findall_url. induction pre as [|c pre IH].
  - destruct post as [|c s]; [discriminate Hm|].
    cbn [app findall_aux]. rewrite Hm. cbn [hd_error]. eauto.
  - cbn [app findall_aux].
    destruct (match_url (c :: pre ++ post)) as [m'|]; [|exact IH].
    cbn [hd_error]. eauto.
Qed.

(** C8, amended. When Method 1 yields nothing, the text view holds
    [streamtyped] and no segment qualifies, then, if the text view
    contains a URL ([http://] or [https://] and one or more characters
    that are neither white space nor U+0000), the pattern has a first
    match in the text view and the decoder returns it as it stands. *)
Theorem url_fallback :
  forall (ucd : unicode_db) (g : py_env) (blob : bytes)
         (parts : list str) (pre m post : str),
    method1 ucd (utf8_decode_ignore blob) = Ok None ->
    contains (lit "streamtyped") (utf8_decode_ignore blob) = true ->
    split (utf8_decode_ignore blob) (lit "NSString") = Ok parts ->
    nsstring_loop ucd (slice_from parts 1) = None ->
    utf8_decode_ignore blob = pre ++ m ++ post ->
    is_url m ->
    exists url : str,
      first_url (utf8_decode_ignore blob) url
      /\ decoded ucd (Some blob) g = Ok url.
Proof.
  intros ucd g blob parts pre m post Hm Hst Hsp Hloop Htext Hurl.
  destruct (match_url_at_url m post Hurl) as [m' Hm'].
  destruct (findall_nonempty pre (m ++ post) m' Hm') as [url Hhd].
  rewrite <- Htext in Hhd.
  exists url. split; [apply findall_head_first; exact Hhd|].
  unfold decoded.
  rewrite decode_run
    by (apply (view_contains_blob_nonempty (lit "streamtyped"));
        [discriminate|exact Hst]).
  cbn [fst]. unfold body_text, streamtyped_text. rewrite Hm, Hst.
  change (split (utf8_decode_ignore blob) (lit "NSString"))
    with (Ok (split_aux (lit "NSString") O [] (utf8_decode_ignore blob)))
    in Hsp.
  injection Hsp as <-. rewrite Hloop, Hhd. reflexivity.
Qed.

Lemma url_fallback_witness :
  exists url : str,
    first_url (utf8_decode_ignore sample_url_blob) url
    /\ decoded sample_ucd (Some sample_url_blob) env0 = Ok url.
Proof.
  apply (url_fallback sample_ucd env0 sample_url_blob
           [lit "streamtyped https://example.com/x?y=1 "]
           (lit "streamtyped ") (lit "https://example.com/x?y=1")
           (lit " ")).
  - vm_compute. reflexivity.
  - vm_compute. reflexivity.
  - vm_compute. reflexivity.
  - vm_compute. reflexivity.
  - vm_compute. reflexivity.
  - exists (lit "example.com/x?y=1").
    split; [discriminate|]. split; [vm_compute; reflexivity|].
    right. vm_compute. reflexivity.
Defined.

(** The sample of the design document decodes to its URL. *)
Lemma sample_url_blob_decodes :
  decoded sample_ucd (Some sample_url_blob) env0
  = Ok (lit "https://example.com/x?y=1").
Proof. vm_compute. reflexivity. Qed.

(** * Further properties of the code *)

(** ** Substrings, trimming and slices *)

Lemma contains_true_iff (sub s : str) :
  contains sub s = true <-> is_substring sub s.
Proof.
  unfold contains, is_substring. destruct (find_nat s sub) as [i|] eqn:F.
  - split; [intros _|reflexivity].
    destruct (find_nat_occurs _ _ _ F) as [post H]. eauto.
  - split; [discriminate|]. intros (pre & post & H).
    exfalso. exact (find_nat_none _ _ F pre post H).
Qed.

Lemma is_substring_trans (a b c : str) :
  is_substring a b -> is_substring b c -> is_substring a c.
Proof.
  intros (p1 & q1 & ->) (p2 & q2 & ->).
  exists (p2 ++ p1), (q1 ++ q2). rewrite <- !app_assoc. reflexivity.
Qed.

Lemma is_substring_refl (s : str) : is_substring s s.
Proof. exists [], []. rewrite app_nil_r. reflexivity. Qed.

Lemma is_prefix_substring (p s : str) : is_prefix p s -> is_substring p s.
Proof. intros [rest ->]. exists [], rest. reflexivity. Qed.

Lemma is_substring_length (a b : str) :
  is_substring a b -> (List.length a <= List.length b)%nat.
Proof. intros (p & q & ->). rewrite !length_app. lia. Qed.

Lemma contains_false_substring (sub t s : str) :
  contains sub s = false -> is_substring t s -> contains sub t = false.
Proof.
  intros Hs Hts. destruct (contains sub t) eqn:E; [|reflexivity].
  apply contains_true_iff in E.
  assert (contains sub s = true)
    by (apply contains_true_iff; exact (is_substring_trans _ _ _ E Hts)).
  congruence.
Qed.

Lemma cut_at_removes (chunk cutoff : str) :
  cutoff <> [] -> contains cutoff (cut_at chunk cutoff) = false.
Proof.
  intros Hne. destruct (find_nat chunk cutoff) as [i|] eqn:F.
  - rewrite (cut_at_found _ _ _ F).
    destruct (contains cutoff (firstn i chunk)) eqn:E; [|reflexivity].
    exfalso. apply contains_true_iff in E as (a & b & E).
    pose proof (find_nat_bound _ _ _ F) as Hb.
    assert (Hc : chunk = a ++ cutoff ++ (b ++ skipn i chunk)).
    { rewrite <- (firstn_skipn i chunk) at 1. rewrite E.
      rewrite <- !app_assoc. reflexivity. }
    pose proof (find_nat_first _ _ _ F _ _ Hc) as Hi.
    assert (Hl : List.length (firstn i chunk) = i)
      by (rewrite length_firstn; lia).
    rewrite E, !length_app in Hl.
    destruct cutoff; [congruence|]. cbn [List.length] in Hl. lia.
  - rewrite (cut_at_absent _ _ F). unfold contains. rewrite F. reflexivity.
Qed.

Lemma fold_cut_at_removes (tokens : list str) (chunk t : str) :
  In t tokens -> t <> [] ->
  contains t (fold_left cut_at tokens chunk) = false.
Proof.
  revert chunk. induction tokens as [|t0 tokens IH]; intros chunk Hin Hne.
  - destruct Hin.
  - cbn [fold_left]. destruct Hin as [-> | Hin].
    + apply (contains_false_substring t _ (cut_at chunk t)).
      * apply cut_at_removes. exact Hne.
      * apply is_prefix_substring. apply fold_cut_at_prefix.
    + apply IH; assumption.
Qed.

Lemma dropwhile_suffix {A} (p : A -> bool) (l : list A) :
  exists w, l = w ++ dropwhile p l /\ forallb p w = true.
Proof.
  exists (takewhile p l). split.
  - apply takewhile_dropwhile.
  - apply forallb_takewhile.
Qed.

Lemma dropwhile_head_isspace (l : str) :
  starts_nonspace (dropwhile isspace l) = true.
Proof.
  induction l as [|c l IH]; [reflexivity|]. cbn [dropwhile].
  destruct (isspace c) eqn:E; [exact IH|]. cbn. rewrite E. reflexivity.
Qed.

Lemma strip_substring (s : str) : is_substring (strip s) s.
Proof.
  unfold strip.
  destruct (dropwhile_suffix isspace s) as (w1 & H1 & _).
  destruct (dropwhile_suffix isspace (rev (dropwhile isspace s)))
    as (w2 & H2 & _).
  set (t := dropwhile isspace s) in *.
  set (u := dropwhile isspace (rev t)) in *.
  exists w1, (rev w2).
  rewrite H1 at 1. f_equal.
  rewrite <- (rev_involutive t), H2, rev_app_distr. reflexivity.
Qed.

Lemma strip_trimmed (s : str) :
  starts_nonspace (strip s) = true /\ starts_nonspace (rev (strip s)) = true.
Proof.
  unfold strip. rewrite rev_involutive. split.
  - destruct (dropwhile_suffix isspace (rev (dropwhile isspace s)))
      as (w2 & H2 & _).
    set (t := dropwhile isspace s) in *.
    set (u := dropwhile isspace (rev t)) in *.
    assert (Ht : t = rev u ++ rev w2).
    { rewrite <- (rev_involutive t), H2, rev_app_distr. reflexivity. }
    pose proof (dropwhile_head_isspace s) as Hh. fold t in Hh.
    destruct (rev u) as [|c r] eqn:E; [reflexivity|].
    rewrite Ht in Hh. exact Hh.
  - apply dropwhile_head_isspace.
Qed.

Lemma slice_firstn_skipn {A} (s : list A) (lo hi : Z) :
  (0 <= lo <= hi)%Z ->
  slice s lo hi = firstn (Z.to_nat (hi - lo)) (skipn (Z.to_nat lo) s).
Proof.
  intros H. unfold slice, norm_index.
  destruct (Z.ltb_spec lo 0); [lia|]. destruct (Z.ltb_spec hi 0); [lia|].
  unfold len. destruct (Z.le_gt_cases lo (Z.of_nat (List.length s))).
  - rewrite (Z.min_l lo) by lia.
    destruct (Z.le_gt_cases hi (Z.of_nat (List.length s))).
    + rewrite Z.min_l by lia. reflexivity.
    + rewrite Z.min_r by lia.
      rewrite !firstn_all2; [reflexivity| |]; rewrite length_skipn; lia.
  - rewrite !Z.min_r by lia. rewrite Z.sub_diag. cbn [Z.to_nat firstn].
    rewrite (skipn_all2 s) by lia. rewrite firstn_nil. reflexivity.
Qed.

Lemma slice_from_skipn {A} (s : list A) (lo : Z) :
  (0 <= lo)%Z -> slice_from s lo = skipn (Z.to_nat lo) s.
Proof.
  intros H. unfold slice_from, norm_index.
  destruct (Z.ltb_spec lo 0); [lia|]. unfold len.
  destruct (Z.le_gt_cases lo (Z.of_nat (List.length s))).
  - rewrite Z.min_l by lia. reflexivity.
  - rewrite Z.min_r by lia. rewrite Nat2Z.id.
    rewrite !skipn_all2 by lia. reflexivity.
Qed.

Lemma is_suffix_substring (t s : str) : is_suffix t s -> is_substring t s.
Proof. intros [h ->]. exists h, []. rewrite app_nil_r. reflexivity. Qed.

Lemma skipn_suffix (n : nat) (s : str) : is_suffix (skipn n s) s.
Proof. exists (firstn n s). symmetry. apply firstn_skipn. Qed.

Lemma skip_length_prefix_suffix (raw chunk : str) :
  skip_length_prefix raw = Ok chunk -> is_suffix chunk raw.
Proof.
  unfold skip_length_prefix. destruct raw as [|c raw].
  - cbn. intros [= <-]. exists []. reflexivity.
  - cbn [truthy]. rewrite index_0_cons.
    destruct (c =? 0x81).
    + intros [= <-]. destruct (3 <? len (c :: raw))%Z.
      * rewrite slice_from_skipn by lia. apply skipn_suffix.
      * exists (c :: raw). rewrite app_nil_r. reflexivity.
    + destruct (c <? 128); intros [= <-].
      * rewrite slice_from_skipn by lia. apply skipn_suffix.
      * exists []. reflexivity.
Qed.

Lemma drop_artifact_suffix ucd (chunk chunk' : str) :
  drop_artifact ucd chunk = Ok chunk' -> is_suffix chunk' chunk.
Proof.
  unfold drop_artifact. destruct (2 <? len chunk)%Z eqn:L.
  - destruct chunk as [|c0 [|c1 rest]]; try discriminate L.
    rewrite index_0_cons, index_1_cons.
    destruct (islower ucd c0); [|intros [= <-]; exists []; reflexivity].
    destruct (isupper ucd c1); intros [= <-].
    + rewrite slice_from_skipn by lia. apply skipn_suffix.
    + exists []. reflexivity.
  - intros [= <-]. exists []. reflexivity.
Qed.

(** ** What Method 1 returns *)

Lemma find_nat_prefix_clean (s sub : str) (i : nat) :
  sub <> [] -> find_nat s sub = Some i -> contains sub (firstn i s) = false.
Proof.
  intros Hne F. rewrite <- (cut_at_found _ _ _ F).
  apply cut_at_removes. exact Hne.
Qed.

Lemma find_nat_skipn (s sub : str) (i : nat) :
  find_nat s sub = Some i ->
  exists post, s = firstn i s ++ sub ++ post
               /\ skipn (i + List.length sub) s = post.
Proof.
  intros F. destruct (find_nat_occurs _ _ _ F) as [post H].
  exists post. split; [exact H|].
  pose proof (find_nat_bound _ _ _ F) as Hb.
  rewrite H at 1. rewrite app_assoc, skipn_app.
  rewrite length_app, length_firstn, Nat.min_l by lia.
  rewrite Nat.sub_diag. cbn [skipn].
  rewrite skipn_all2; [reflexivity|].
  rewrite length_app, length_firstn. lia.
Qed.

(** What Method 1 went through when it returns. *)
Lemma method1_some_inv ucd (text chunk : str) :
  method1 ucd text = Ok (Some chunk) ->
  exists (i : nat) (c1 c2 : str),
    find_nat text (lit "+") = Some i
    /\ skip_length_prefix (firstn 999 (skipn (S i) text)) = Ok c1
    /\ drop_artifact ucd (cut_markers c1) = Ok c2
    /\ chunk = strip c2
    /\ (3 < len chunk)%Z.
Proof.
  unfold method1, contains, modern_chunk, find.
  destruct (find_nat text (lit "+")) as [i|] eqn:F; [|discriminate].
  cbv beta iota zeta. rewrite slice_firstn_skipn by lia.
  replace (Z.to_nat (Z.of_nat i + 1000 - (Z.of_nat i + 1))) with 999%nat by lia.
  replace (Z.to_nat (Z.of_nat i + 1)) with (S i) by lia.
  destruct (skip_length_prefix _) as [c1|e] eqn:E1; [|discriminate].
  destruct (drop_artifact ucd (cut_markers c1)) as [c2|e] eqn:E2;
    [|discriminate].
  destruct (3 <? len (strip c2))%Z eqn:L; [|discriminate].
  intros [= <-]. exists i, c1, c2.
  split; [reflexivity|]. split; [exact E1|]. split; [exact E2|].
  split; [reflexivity|]. apply Z.ltb_lt. exact L.
Qed.

Lemma decode_modern ucd (g : py_env) (blob : bytes) (chunk : str) :
  method1 ucd (utf8_decode_ignore blob) = Ok (Some chunk) ->
  decode_attributed_body ucd (Some blob) g = (Ok chunk, g).
Proof.
  intros Hm.
  assert (Hplus : contains (lit "+") (utf8_decode_ignore blob) = true).
  { unfold method1 in Hm.
    destruct (contains (lit "+") (utf8_decode_ignore blob));
      [reflexivity|discriminate]. }
  rewrite decode_run
    by (apply (view_contains_blob_nonempty (lit "+")); [discriminate|exact Hplus]).
  unfold body_text, env_after_body. rewrite Hm. reflexivity.
Qed.

(** X6. When Method 1 returns a chunk, the decoder returns that chunk and
    leaves the state as it was; the chunk is between 4 and 999 characters
    long and has no white space at either end. *)
Theorem modern_result_trimmed_and_bounded :
  forall (ucd : unicode_db) (g : py_env) (blob : bytes) (chunk : str),
    method1 ucd (utf8_decode_ignore blob) = Ok (Some chunk) ->
    decode_attributed_body ucd (Some blob) g = (Ok chunk, g)
    /\ (4 <= len chunk <= 999)%Z
    /\ starts_nonspace chunk = true
    /\ starts_nonspace (rev chunk) = true.
Proof.
  intros ucd g blob chunk Hm. split; [exact (decode_modern ucd g blob chunk Hm)|].
  destruct (method1_some_inv ucd _ _ Hm) as (i & c1 & c2 & F & E1 & E2 & -> & L).
  split.
  - split; [lia|].
    pose proof (is_substring_length _ _ (strip_substring c2)) as H1.
    pose proof (is_substring_length _ _
                  (is_suffix_substring _ _ (drop_artifact_suffix ucd _ _ E2))) as H2.
    pose proof (is_prefix_length _ _ (fold_cut_at_prefix cutoffs c1)) as H3.
    fold (cut_markers c1) in H3.
    pose proof (is_substring_length _ _
                  (is_suffix_substring _ _ (skip_length_prefix_suffix _ _ E1))) as H4.
    rewrite length_firstn in H4. unfold len. lia.
  - apply strip_trimmed.
Qed.

Lemma modern_result_trimmed_and_bounded_witness :
  decode_attributed_body sample_ucd (Some sample_long_blob) env0
  = (Ok (lit "Hello world"), env0)
  /\ (4 <= len (lit "Hello world") <= 999)%Z
  /\ starts_nonspace (lit "Hello world") = true
  /\ starts_nonspace (rev (lit "Hello world")) = true.
Proof.
  apply (modern_result_trimmed_and_bounded sample_ucd env0 sample_long_blob
           (lit "Hello world")).
  vm_compute. reflexivity.
Defined.

(** X7. When Method 1 returns a chunk, the chunk holds none of the six
    marker tokens. *)
Theorem modern_result_marker_free :
  forall (ucd : unicode_db) (g : py_env) (blob : bytes) (chunk cutoff : str),
    method1 ucd (utf8_decode_ignore blob) = Ok (Some chunk) ->
    In cutoff cutoffs ->
    decoded ucd (Some blob) g = Ok chunk
    /\ contains cutoff chunk = false.
Proof.
  intros ucd g blob chunk cutoff Hm Hin. split.
  - unfold decoded. rewrite (decode_modern ucd g blob chunk Hm). reflexivity.
  - destruct (method1_some_inv ucd _ _ Hm) as (i & c1 & c2 & F & E1 & E2 & -> & L).
    apply (contains_false_substring cutoff _ (cut_markers c1)).
    + apply fold_cut_at_removes; [exact Hin|].
      cbn in Hin. intuition (subst; discriminate).
    + apply (is_substring_trans _ c2).
      * apply strip_substring.
      * apply is_suffix_substring. exact (drop_artifact_suffix ucd _ _ E2).
Qed.

Lemma modern_result_marker_free_witness :
  decoded sample_ucd (Some sample_long_blob) env0 = Ok (lit "Hello world")
  /\ contains (lit "__kIM") (lit "Hello world") = false.
Proof.
  apply (modern_result_marker_free sample_ucd env0 sample_long_blob
           (lit "Hello world") (lit "__kIM")).
  - vm_compute. reflexivity.
  - left. reflexivity.
Defined.

(** Where in the text what Method 1 returns comes from. *)
Lemma method1_some_place ucd (text chunk : str) :
  method1 ucd text = Ok (Some chunk) ->
  exists pre mid post : str,
    text = pre ++ lit "+" ++ mid ++ chunk ++ post
    /\ contains (lit "+") pre = false
    /\ (len mid + len chunk <= 999)%Z.
Proof.
  intros Hm.
  destruct (method1_some_inv ucd _ _ Hm) as (i & c1 & c2 & F & E1 & E2 & -> & L).
  destruct (find_nat_skipn _ _ _ F) as (post0 & Ht & Hsk).
  change (List.length (lit "+")) with 1%nat in Hsk.
  replace (i + 1)%nat with (S i) in Hsk by lia.
  rewrite Hsk in E1.
  assert (Hsub : is_substring (strip c2) (firstn 999 post0)).
  { apply (is_substring_trans _ c2); [apply strip_substring|].
    apply (is_substring_trans _ (cut_markers c1));
      [apply is_suffix_substring; exact (drop_artifact_suffix ucd _ _ E2)|].
    apply (is_substring_trans _ c1);
      [apply is_prefix_substring; apply fold_cut_at_prefix|].
    apply is_suffix_substring. exact (skip_length_prefix_suffix _ _ E1). }
  destruct Hsub as (a & b & Hraw).
  exists (firstn i text), a, (b ++ skipn 999 post0). split; [|split].
  - rewrite Ht at 1. f_equal. f_equal.
    rewrite <- (firstn_skipn 999 post0) at 1. rewrite Hraw.
    rewrite <- !app_assoc. reflexivity.
  - apply find_nat_prefix_clean; [discriminate|exact F].
  - assert (Hl : (List.length (firstn 999 post0) <= 999)%nat)
      by (rewrite length_firstn; lia).
    rewrite Hraw, !length_app in Hl. unfold len. lia.
Qed.

(** X8. When Method 1 returns a chunk, the chunk is a piece of the text
    view that lies within the 999 characters after the first [+]. *)
Theorem modern_result_from_run :
  forall (ucd : unicode_db) (g : py_env) (blob : bytes) (chunk : str),
    method1 ucd (utf8_decode_ignore blob) = Ok (Some chunk) ->
    decoded ucd (Some blob) g = Ok chunk
    /\ exists pre mid post : str,
         utf8_decode_ignore blob = pre ++ lit "+" ++ mid ++ chunk ++ post
         /\ contains (lit "+") pre = false
         /\ (len mid + len chunk <= 999)%Z.
Proof.
  intros ucd g blob chunk Hm. split.
  - unfold decoded. rewrite (decode_modern ucd g blob chunk Hm). reflexivity.
  - exact (method1_some_place ucd _ _ Hm).
Qed.

Lemma modern_result_from_run_witness :
  decoded sample_ucd (Some sample_long_blob) env0 = Ok (lit "Hello world")
  /\ exists pre mid post : str,
       utf8_decode_ignore sample_long_blob
       = pre ++ lit "+" ++ mid ++ lit "Hello world" ++ post
       /\ contains (lit "+") pre = false
       /\ (len mid + len (lit "Hello world") <= 999)%Z.
Proof.
  apply (modern_result_from_run sample_ucd env0 sample_long_blob
           (lit "Hello world")).
  vm_compute. reflexivity.
Defined.

(** ** The cleaned form of a segment *)

Lemma in_replace_aux (old new : str) (c : char) (s : str) (skip : nat) :
  In c (replace_aux old new skip s) -> In c s \/ In c new.
Proof.
  revert skip. induction s as [|x s IH]; intros skip; cbn [replace_aux].
  - intros [].
  - destruct skip as [|k].
    + destruct (startswith (x :: s) old).
      * intros H. apply in_app_or in H as [H|H]; [right; exact H|].
        destruct (IH _ H); [left; right; assumption|right; assumption].
      * intros [<- | H]; [left; left; reflexivity|].
        destruct (IH _ H); [left; right; assumption|right; assumption].
    + intros H. destruct (IH _ H); [left; right; assumption|right; assumption].
Qed.

Lemma in_replace (s old new : str) (c : char) :
  old <> [] -> In c (replace s old new) -> In c s \/ In c new.
Proof.
  intros Hne. unfold replace. destruct old as [|o old]; [congruence|].
  cbn [truthy]. apply in_replace_aux.
Qed.

Lemma replace_aux_one_removes (s : str) (x y : char) (skip : nat) :
  x <> y -> ~ In x (replace_aux [x] [y] skip s).
Proof.
  intros Hxy. revert skip.
  induction s as [|c s IH]; intros skip; cbn [replace_aux].
  - intros H. destruct H.
  - destruct skip as [|k]; [|apply IH].
    cbn [startswith]. destruct (N.eqb_spec x c) as [<-|Hc]; cbn [andb].
    + cbn [app]. intros [H|H]; [congruence|exact (IH _ H)].
    + intros [H|H]; [congruence|exact (IH _ H)].
Qed.

Lemma replace_one_removes (s : str) (x y : char) :
  x <> y -> ~ In x (replace s [x] [y]).
Proof. intros Hxy. unfold replace. cbn [truthy]. apply replace_aux_one_removes. exact Hxy. Qed.

Lemma split_ws_aux_words (cur s : str) :
  cur <> [] \/ True ->
  Forall (fun c => isspace c = false) cur ->
  Forall (fun w => w <> [] /\ Forall (fun c => isspace c = false) w
                   /\ forall c, In c w -> In c cur \/ In c s)
         (split_ws_aux cur s).
Proof.
  intros _. revert cur. induction s as [|x s IH]; intros cur Hcur;
    cbn [split_ws_aux].
  - destruct cur as [|c cur]; cbn [truthy]; constructor; [|constructor].
    split; [|split].
    + intros H. apply (f_equal (@List.length _)) in H.
      rewrite length_rev in H. discriminate H.
    + apply Forall_rev. exact Hcur.
    + intros c' H. left. apply in_rev. exact H.
  - destruct (isspace x) eqn:E.
    + assert (Hrest : Forall (fun w => w <> [] /\ Forall (fun c => isspace c = false) w
                   /\ forall c, In c w -> In c cur \/ In c (x :: s))
         (split_ws_aux [] s)).
      { eapply Forall_impl; [|exact (IH [] (Forall_nil _))].
        cbn beta. intros w (H1 & H2 & H3). split; [exact H1|]. split; [exact H2|].
        intros c Hc. destruct (H3 c Hc) as [[]|H]. right. right. exact H. }
      destruct cur as [|c cur]; cbn [truthy]; [exact Hrest|].
      constructor; [|exact Hrest]. split; [|split].
      * intros H. apply (f_equal (@List.length _)) in H.
        rewrite length_rev in H. discriminate H.
      * apply Forall_rev. exact Hcur.
      * intros c' H. left. apply in_rev. exact H.
    + eapply Forall_impl; [|exact (IH (x :: cur) (Forall_cons _ E Hcur))].
      cbn beta. intros w (H1 & H2 & H3). split; [exact H1|]. split; [exact H2|].
      intros c Hc. destruct (H3 c Hc) as [[<-|H]|H].
      * right. left. reflexivity.
      * left. exact H.
      * right. right. exact H.
Qed.

Lemma split_ws_words (s : str) :
  Forall (fun w => w <> [] /\ Forall (fun c => isspace c = false) w
                   /\ forall c, In c w -> In c s)
         (split_ws s).
Proof.
  unfold split_ws.
  eapply Forall_impl; [|exact (split_ws_aux_words [] s (or_intror I) (Forall_nil _))].
  cbn beta. intros w (H1 & H2 & H3). split; [exact H1|]. split; [exact H2|].
  intros c Hc. destruct (H3 c Hc) as [[]|H]. exact H.
Qed.

Lemma join_cons2 (sep p q : str) (rest : list str) :
  join sep (p :: q :: rest) = p ++ sep ++ join sep (q :: rest).
Proof. reflexivity. Qed.

Lemma in_join (sep : str) (ws : list str) (c : char) :
  In c (join sep ws) -> In c sep \/ exists w, In w ws /\ In c w.
Proof.
  induction ws as [|p [|q rest] IH].
  - intros [].
  - cbn [join]. intros H. right. exists p. split; [left; reflexivity|exact H].
  - rewrite join_cons2. intros H.
    apply in_app_or in H as [H|H].
    + right. exists p. split; [left; reflexivity|exact H].
    + apply in_app_or in H as [H|H]; [left; exact H|].
      destruct (IH H) as [H'|(w & Hw & Hc)]; [left; exact H'|].
      right. exists w. split; [right; exact Hw|exact Hc].
Qed.

Lemma word_starts (w t : str) : word w -> starts_nonspace (w ++ t) = true.
Proof.
  intros [Hne Hw]. destruct w as [|c w]; [congruence|].
  cbn. apply Forall_inv in Hw. rewrite Hw. reflexivity.
Qed.

Lemma no_double_space_word_app (w t : str) :
  Forall (fun c => isspace c = false) w ->
  starts_nonspace t = true -> no_double_space t = true ->
  no_double_space (w ++ 0x20 :: t) = true.
Proof.
  intros Hw Ht Hn. induction w as [|c w IH].
  - cbn [app no_double_space]. destruct t as [|d t]; [reflexivity|].
    cbn in Ht. apply negb_true_iff in Ht. rewrite Ht.
    rewrite andb_false_r. cbn [negb andb]. exact Hn.
  - pose proof (Forall_inv Hw) as Hc. apply Forall_inv_tail in Hw.
    cbn [app no_double_space].
    destruct (w ++ 32 :: t) as [|d r] eqn:E.
    + reflexivity.
    + rewrite Hc. cbn [andb negb]. apply IH. exact Hw.
Qed.

Lemma no_double_space_word (w : str) :
  Forall (fun c => isspace c = false) w -> no_double_space w = true.
Proof.
  induction w as [|c w IH]; intros Hw; [reflexivity|].
  pose proof (Forall_inv Hw) as Hc. apply Forall_inv_tail in Hw.
  cbn [no_double_space]. destruct w as [|d w]; [reflexivity|].
  rewrite Hc. cbn [andb negb]. exact (IH Hw).
Qed.

Lemma rev_word (w : str) : word w -> word (rev w).
Proof.
  intros [Hne Hw]. split.
  - intros H. apply Hne. rewrite <- (rev_involutive w), H. reflexivity.
  - apply Forall_rev. exact Hw.
Qed.

Lemma join_words (ws : list str) :
  Forall word ws ->
  starts_nonspace (join (lit " ") ws) = true
  /\ starts_nonspace (rev (join (lit " ") ws)) = true
  /\ no_double_space (join (lit " ") ws) = true.
Proof.
  induction ws as [|p [|q rest] IH]; intros Hws.
  - repeat split.
  - cbn [join]. pose proof (Forall_inv Hws) as Hp. split; [|split].
    + rewrite <- (app_nil_r p). apply word_starts. exact Hp.
    + rewrite <- (app_nil_r (rev p)). apply word_starts. apply rev_word. exact Hp.
    + apply no_double_space_word. apply Hp.
  - pose proof (Forall_inv Hws) as Hp. apply Forall_inv_tail in Hws.
    destruct (IH Hws) as (I1 & I2 & I3). rewrite join_cons2.
    change (lit " ") with [0x20]. change (lit " ") with [0x20] in I1, I2, I3.
    split; [|split].
    + apply word_starts. exact Hp.
    + rewrite rev_app_distr. cbn [app rev].
      set (j := join [32] (q :: rest)) in *.
      destruct (rev j) as [|c r] eqn:E.
      * exfalso. assert (Hq : word q) by exact (Forall_inv Hws).
        assert (j <> []).
        { unfold j. destruct rest; cbn [join]; destruct Hq as [Hq _].
          - exact Hq.
          - destruct q; [congruence|discriminate]. }
        apply H. rewrite <- (rev_involutive j), E. reflexivity.
      * cbn [app]. exact I2.
    + cbn [app]. apply no_double_space_word_app; [apply Hp|exact I1|exact I3].
Qed.

Lemma dropwhile_id (s : str) :
  starts_nonspace s = true -> dropwhile isspace s = s.
Proof.
  destruct s as [|c s]; [reflexivity|]. cbn. intros H.
  apply negb_true_iff in H. rewrite H. reflexivity.
Qed.

Lemma strip_id (s : str) :
  starts_nonspace s = true -> starts_nonspace (rev s) = true -> strip s = s.
Proof.
  intros H1 H2. unfold strip. rewrite (dropwhile_id s H1).
  rewrite (dropwhile_id _ H2). apply rev_involutive.
Qed.

Lemma in_fold_replace (ms : list str) (s : str) (c : char) :
  Forall (fun m => m <> []) ms ->
  In c (fold_left (fun r m => replace r m (lit " ")) ms s) ->
  In c s \/ c = 0x20.
Proof.
  revert s. induction ms as [|m ms IH]; intros s Hms; cbn [fold_left].
  - auto.
  - intros H. pose proof (Forall_inv Hms) as Hm.
    destruct (IH _ (Forall_inv_tail Hms) H) as [H1|H1]; [|auto].
    destruct (in_replace _ _ _ _ Hm H1) as [H2|H2]; [auto|].
    right. destruct H2 as [H2|[]]. symmetry. exact H2.
Qed.

Lemma is_substring_in (a b : str) (c : char) :
  is_substring a b -> In c a -> In c b.
Proof.
  intros (p & q & ->) H. apply in_or_app. right. apply in_or_app. left. exact H.
Qed.

(** The characters of [readable] after the replacements of line 61. *)
Lemma in_replaced ucd (part : str) (c : char) :
  In c (fold_left (fun r m => replace r m (lit " ")) markers
          (filter (isprintable ucd) part)) ->
  c <> 0x69 /\ c <> 0x49
  /\ (c = 0x20 \/ (In c part /\ isprintable ucd c = true)).
Proof.
  change markers
    with ([lit "NSMutableString"; lit "NSDictionary"; lit "NSNumber";
           lit "NSValue"; lit "NSObject"; lit "NSData"] ++ [[0x69]; [0x49]]).
  rewrite fold_left_app.
  set (r1 := fold_left (fun r m => replace r m (lit " "))
                [lit "NSMutableString"; lit "NSDictionary"; lit "NSNumber";
                 lit "NSValue"; lit "NSObject"; lit "NSData"]
                (filter (isprintable ucd) part)).
  cbn [fold_left]. change (lit " ") with [0x20]. intros H.
  assert (H49 : c <> 0x49).
  { intros ->. revert H. apply replace_one_removes. discriminate. }
  split; [|split; [exact H49|]].
  - intros ->.
    destruct (in_replace _ [0x49] _ _ ltac:(discriminate) H) as [H1|[H1|[]]];
      [|discriminate H1].
    revert H1. apply replace_one_removes. discriminate.
  - destruct (in_replace _ [0x49] _ _ ltac:(discriminate) H) as [H1|[H1|[]]];
      [|left; symmetry; exact H1].
    destruct (in_replace _ [0x69] _ _ ltac:(discriminate) H1) as [H2|[H2|[]]];
      [|left; symmetry; exact H2].
    unfold r1 in H2. apply in_fold_replace in H2.
    + destruct H2 as [H2|H2]; [|left; exact H2].
      apply filter_In in H2. right. exact H2.
    + repeat constructor; discriminate.
Qed.

(** The cleaned form is made of words joined by single spaces. *)
Lemma clean_part_words ucd (part : str) :
  exists ws : list str,
    clean_part ucd part = join (lit " ") ws
    /\ Forall word ws
    /\ forall w c, In w ws -> In c w ->
         c <> 0x69 /\ c <> 0x49 /\ isprintable ucd c = true
         /\ In c part /\ isspace c = false.
Proof.
  unfold clean_part.
  set (r := fold_left _ markers _).
  pose proof (split_ws_words r) as Hall.
  assert (Hw : Forall word (split_ws r)).
  { eapply Forall_impl; [|exact Hall].
    cbn beta. intros w (H1 & H2 & _). split; assumption. }
  exists (split_ws r). split; [|split; [exact Hw|]].
  - destruct (join_words _ Hw) as (J1 & J2 & _). apply strip_id; assumption.
  - intros w c Hin Hc. rewrite Forall_forall in Hall.
    destruct (Hall w Hin) as (_ & Hns & Hr). rewrite Forall_forall in Hns.
    pose proof (Hns c Hc) as Hsp.
    destruct (in_replaced ucd part c (Hr c Hc)) as (H1 & H2 & [->|[H3 H4]]).
    + discriminate Hsp.
    + auto.
Qed.

(** X11. Every character of a cleaned segment is printable and is
    neither [i] nor [I]; it is a space, or a character of the segment
    that is no white space. *)
Theorem cleaned_segment_characters :
  forall (ucd : unicode_db) (part : str),
    Forall (fun c => isprintable ucd c = true
                     /\ c <> 0x69 /\ c <> 0x49
                     /\ (c = 0x20 \/ (In c part /\ isspace c = false)))
           (clean_part ucd part).
Proof.
  intros ucd part. destruct (clean_part_words ucd part) as (ws & -> & _ & Hc).
  apply Forall_forall. intros c Hin.
  apply in_join in Hin as [Hin|(w & Hw & Hin)].
  - destruct Hin as [<-|[]]. repeat split; try discriminate. left. reflexivity.
  - destruct (Hc w c Hw Hin) as (H1 & H2 & H3 & H4 & H5). auto 6.
Qed.

(** X12. A cleaned segment has no white space at either end, no two
    white-space characters side by side, and no white space but the
    space. *)
Theorem cleaned_segment_spacing :
  forall (ucd : unicode_db) (part : str),
    starts_nonspace (clean_part ucd part) = true
    /\ starts_nonspace (rev (clean_part ucd part)) = true
    /\ no_double_space (clean_part ucd part) = true
    /\ Forall (fun c => isspace c = false \/ c = 0x20) (clean_part ucd part).
Proof.
  intros ucd part. destruct (clean_part_words ucd part) as (ws & -> & Hw & Hc).
  destruct (join_words ws Hw) as (J1 & J2 & J3).
  split; [exact J1|]. split; [exact J2|]. split; [exact J3|].
  apply Forall_forall. intros c Hin.
  apply in_join in Hin as [Hin|(w & Hin & Hcw)].
  - destruct Hin as [<-|[]]. right. reflexivity.
  - destruct (Hc w c Hin Hcw) as (_ & _ & _ & _ & H). left. exact H.
Qed.

(** ** What the loop over the segments returns *)

Lemma no_double_space_firstn (n : nat) (s : str) :
  no_double_space s = true -> no_double_space (firstn n s) = true.
Proof.
  revert n. induction s as [|c s IH]; intros n H.
  - rewrite firstn_nil. reflexivity.
  - destruct n as [|n]; [reflexivity|]. cbn [firstn].
    destruct s as [|d s]; [rewrite firstn_nil; reflexivity|].
    cbn [no_double_space] in H. apply andb_true_iff in H as [H1 H2].
    destruct n as [|n]; [reflexivity|].
    specialize (IH (S n) H2). cbn [firstn] in IH |- *.
    cbn [no_double_space]. rewrite H1. exact IH.
Qed.

Lemma in_firstn {A} (n : nat) (s : list A) (x : A) :
  In x (firstn n s) -> In x s.
Proof.
  intros H. rewrite <- (firstn_skipn n s). apply in_or_app. left. exact H.
Qed.

(** X13. What the loop over the segments returns is between 11 and 500
    characters long, does not begin with [+] or with white space, has no
    two white-space characters side by side, and consists of printable
    characters other than [i] and [I]. *)
Theorem legacy_segment_shape :
  forall (ucd : unicode_db) (parts : list str) (r : str),
    nsstring_loop ucd parts = Some r ->
    (11 <= len r <= 500)%Z
    /\ startswith r (lit "+") = false
    /\ starts_nonspace r = true
    /\ no_double_space r = true
    /\ Forall (fun c => isprintable ucd c = true /\ c <> 0x69 /\ c <> 0x49) r.
Proof.
  intros ucd parts r H.
  destruct (nsstring_loop_some ucd parts r H) as (part & _ & Hq & ->).
  rewrite (slice_to_firstn _ 500) by lia.
  change (Z.to_nat 500) with 500%nat.
  unfold qualifies in Hq. apply andb_true_iff in Hq as [Hl Hp].
  apply Z.ltb_lt in Hl. apply negb_true_iff in Hp.
  destruct (clean_part_words ucd part) as (ws & Hj & Hw & Hc).
  destruct (join_words ws Hw) as (S1 & _ & S3).
  rewrite <- Hj in S1, S3.
  assert (Hchars : forall c, In c (clean_part ucd part) ->
            isprintable ucd c = true /\ c <> 0x69 /\ c <> 0x49).
  { intros c Hin. rewrite Hj in Hin.
    apply in_join in Hin as [Hin|(w & Hin & Hcw)].
    - destruct Hin as [<-|[]]. repeat split; discriminate.
    - destruct (Hc w c Hin Hcw) as (H1 & H2 & H3 & _). auto. }
  set (clean := clean_part ucd part) in *.
  split; [|split; [|split; [|split]]].
  - unfold len in *. rewrite length_firstn. lia.
  - destruct clean as [|c t]; [discriminate Hl|]. exact Hp.
  - destruct clean as [|c t]; [reflexivity|]. exact S1.
  - apply no_double_space_firstn. exact S3.
  - apply Forall_forall. intros c Hin. apply in_firstn in Hin.
    exact (Hchars c Hin).
Qed.

Lemma legacy_segment_shape_witness :
  (11 <= len (lit "ZZZSome message text here ...") <= 500)%Z
  /\ startswith (lit "ZZZSome message text here ...") (lit "+") = false
  /\ starts_nonspace (lit "ZZZSome message text here ...") = true
  /\ no_double_space (lit "ZZZSome message text here ...") = true
  /\ Forall (fun c => isprintable sample_ucd c = true
                      /\ c <> 0x69 /\ c <> 0x49)
            (lit "ZZZSome message text here ...").
Proof.
  apply (legacy_segment_shape sample_ucd
           [lit "abc"; lit "ZZZSome message text hereNSDictionary..."]
           (lit "ZZZSome message text here ...")).
  vm_compute. reflexivity.
Defined.

(** ** The decoder as a whole *)

Lemma in_split_aux (sep : str) (skip : nat) (cur s part : str) (c : char) :
  In part (split_aux sep skip cur s) -> In c part -> In c cur \/ In c s.
Proof.
  revert skip cur. induction s as [|x s IH]; intros skip cur; cbn [split_aux].
  - intros [<-|[]] Hc. left. apply in_rev. exact Hc.
  - destruct skip as [|k].
    + destruct (startswith (x :: s) sep).
      * intros [<-|H] Hc; [left; apply in_rev; exact Hc|].
        destruct (IH _ _ H Hc) as [[]|H']. right. right. exact H'.
      * intros H Hc. destruct (IH _ _ H Hc) as [[<-|H']|H'].
        -- right. left. reflexivity.
        -- left. exact H'.
        -- right. right. exact H'.
    + intros H Hc. destruct (IH _ _ H Hc) as [H'|H']; [left; exact H'|].
      right. right. exact H'.
Qed.

Lemma in_skipn {A} (n : nat) (s : list A) (x : A) :
  In x (skipn n s) -> In x s.
Proof.
  intros H. rewrite <- (firstn_skipn n s). apply in_or_app. right. exact H.
Qed.

Lemma is_url_length (m : str) : is_url m -> (8 <= len m)%Z.
Proof.
  intros (body & Hne & _ & [-> | ->]); unfold len; rewrite length_app;
    destruct body; try congruence; cbn [List.length lit List.map list_ascii_of_string]; lia.
Qed.

Lemma first_url_inv (text m : str) :
  first_url text m -> is_url m /\ is_substring m text.
Proof.
  intros (pre & post & -> & (Hu & post' & -> & _) & _).
  split; [exact Hu|]. exists pre, post'. reflexivity.
Qed.

(** What Method 2 returns: its length and where its characters come from. *)
Lemma streamtyped_text_some ucd (text r : str) :
  streamtyped_text ucd text = Some r ->
  (8 <= len r)%Z /\ forall c, In c r -> c = 0x20 \/ In c text.
Proof.
  unfold streamtyped_text. destruct (contains (lit "streamtyped") text); [|discriminate].
  destruct (nsstring_loop ucd _) as [r'|] eqn:E.
  - intros [= <-].
    destruct (nsstring_loop_some ucd _ _ E) as (part & Hin & Hq & ->).
    rewrite (slice_to_firstn _ 500) by lia. change (Z.to_nat 500) with 500%nat.
    unfold qualifies in Hq. apply andb_true_iff in Hq as [Hl _].
    apply Z.ltb_lt in Hl. split.
    + unfold len in *. rewrite length_firstn. lia.
    + intros c Hc. apply in_firstn in Hc.
      destruct (clean_part_words ucd part) as (ws & Hj & _ & Hw).
      rewrite Hj in Hc. apply in_join in Hc as [Hc|(w & Hw1 & Hc)].
      * destruct Hc as [<-|[]]. left. reflexivity.
      * right. destruct (Hw w c Hw1 Hc) as (_ & _ & _ & Hp & _).
        rewrite slice_from_skipn in Hin by lia.
        apply in_skipn in Hin.
        destruct (in_split_aux _ _ _ _ _ c Hin Hp) as [[]|H]. exact H.
  - intros Hhd. apply findall_head_first in Hhd.
    destruct (first_url_inv _ _ Hhd) as [Hu Hs]. split.
    + exact (is_url_length _ Hu).
    + intros c Hc. right. exact (is_substring_in _ _ c Hs Hc).
Qed.

(** X4. A decoded text is empty or at least four characters long: the
    decoder never returns a text of one, two or three characters. *)
Theorem decoded_empty_or_four :
  forall (ucd : unicode_db) (g : py_env) (blob : bytes),
    exists s : str,
      decoded ucd (Some blob) g = Ok s
      /\ (s = [] \/ (4 <= len s)%Z).
Proof.
  intros ucd g blob. destruct blob as [|x b].
  - exists []. split; [reflexivity|left; reflexivity].
  - unfold decoded. rewrite decode_run by discriminate. cbn [fst].
    eexists. split; [reflexivity|].
    unfold body_text.
    destruct (method1 ucd _) as [[chunk|]|e] eqn:Hm.
    + right.
      destruct (method1_some_inv ucd _ _ Hm) as (i & c1 & c2 & _ & _ & _ & _ & L).
      lia.
    + destruct (streamtyped_text ucd _) as [r|] eqn:Hs; [|left; reflexivity].
      right. destruct (streamtyped_text_some ucd _ _ Hs) as [Hl _]. lia.
    + destruct (streamtyped_text ucd _) as [r|] eqn:Hs; [|left; reflexivity].
      right. destruct (streamtyped_text_some ucd _ _ Hs) as [Hl _]. lia.
Qed.

(** X5. Every character of a decoded text occurs in the text view of
    the blob or is a space: the decoder invents no character but the
    space. *)
Theorem decoded_characters_from_view :
  forall (ucd : unicode_db) (g : py_env) (blob : bytes),
    exists s : str,
      decoded ucd (Some blob) g = Ok s
      /\ Forall (fun c => c = 0x20 \/ In c (utf8_decode_ignore blob)) s.
Proof.
  intros ucd g blob. destruct blob as [|x b].
  - exists []. split; [reflexivity|constructor].
  - unfold decoded. rewrite decode_run by discriminate. cbn [fst].
    eexists. split; [reflexivity|].
    set (text := utf8_decode_ignore (x :: b)).
    unfold body_text. apply Forall_forall. intros c.
    destruct (method1 ucd text) as [[chunk|]|e] eqn:Hm.
    + intros Hc. right.
      destruct (method1_some_place ucd _ _ Hm) as (pre & mid & post & Ht & _).
      rewrite Ht. apply in_or_app. right. apply in_or_app. right.
      apply in_or_app. right. apply in_or_app. left. exact Hc.
    + destruct (streamtyped_text ucd text) as [r|] eqn:Hs; [|intros []].
      destruct (streamtyped_text_some ucd _ _ Hs) as [_ Hin]. apply Hin.
    + destruct (streamtyped_text ucd text) as [r|] eqn:Hs; [|intros []].
      destruct (streamtyped_text_some ucd _ _ Hs) as [_ Hin]. apply Hin.
Qed.

(** X3. A blob whose text view holds neither a [+] nor [streamtyped]
    decodes to the empty string, and the interpreter state is left as it
    was. *)
Theorem no_marker_no_text :
  forall (ucd : unicode_db) (g : py_env) (blob : bytes),
    contains (lit "+") (utf8_decode_ignore blob) = false ->
    contains (lit "streamtyped") (utf8_decode_ignore blob) = false ->
    decode_attributed_body ucd (Some blob) g = (Ok empty_str, g).
Proof.
  intros ucd g blob Hp Hs. destruct blob as [|x b]; [reflexivity|].
  rewrite decode_run by discriminate.
  unfold body_text, env_after_body, method1, streamtyped_text, env_after_method2.
  rewrite Hp, Hs. reflexivity.
Qed.

Lemma no_marker_no_text_witness :
  decode_attributed_body sample_ucd (Some sample_plain_blob) env0
  = (Ok empty_str, env0).
Proof.
  apply (no_marker_no_text sample_ucd env0 sample_plain_blob);
    vm_compute; reflexivity.
Defined.

(** ** The text view *)

Lemma is_scalar_iff (c : char) :
  is_scalar c = true <-> c < 0xD800 \/ (0xE000 <= c /\ c < 0x110000).
Proof.
  unfold is_scalar. rewrite orb_true_iff, andb_true_iff.
  rewrite N.ltb_lt, N.leb_le, N.ltb_lt. reflexivity.
Qed.

Lemma is_continuation_iff (b : N) :
  is_continuation b = true <-> 0x80 <= b /\ b < 0xC0.
Proof.
  unfold is_continuation. rewrite andb_true_iff, N.leb_le, N.ltb_lt.
  reflexivity.
Qed.

Lemma cp2_scalar (ch ch2 : N) :
  0xC2 <= ch -> ch < 0xE0 -> is_continuation ch2 = true ->
  is_scalar (cp2 ch ch2) = true.
Proof.
  intros H1 H2 H3. apply is_continuation_iff in H3. apply is_scalar_iff.
  unfold cp2. rewrite !N.shiftl_mul_pow2. change (2 ^ 6) with 64. lia.
Qed.

Lemma cp3_scalar (ch ch2 ch3 : N) :
  0xE0 <= ch -> ch < 0xF0 -> bad_second3 ch ch2 = false ->
  is_continuation ch3 = true ->
  is_scalar (cp3 ch ch2 ch3) = true.
Proof.
  intros H1 H2 H3 H4. apply is_continuation_iff in H4.
  unfold bad_second3 in H3. apply orb_false_iff in H3 as [H3 H5].
  apply negb_false_iff in H3. apply is_continuation_iff in H3.
  apply is_scalar_iff.
  unfold cp3. rewrite !N.shiftl_mul_pow2.
  change (2 ^ 6) with 64. change (2 ^ 12) with 4096.
  destruct (N.ltb_spec ch2 0xA0).
  - apply N.eqb_neq in H5. lia.
  - apply N.eqb_neq in H5. lia.
Qed.

Lemma cp4_scalar (ch ch2 ch3 ch4 : N) :
  0xF0 <= ch -> ch < 0xF5 -> bad_second4 ch ch2 = false ->
  is_continuation ch3 = true -> is_continuation ch4 = true ->
  is_scalar (cp4 ch ch2 ch3 ch4) = true.
Proof.
  intros H1 H2 H3 H4 H6. apply is_continuation_iff in H4, H6.
  unfold bad_second4 in H3. apply orb_false_iff in H3 as [H3 H5].
  apply negb_false_iff in H3. apply is_continuation_iff in H3.
  apply is_scalar_iff.
  unfold cp4. rewrite !N.shiftl_mul_pow2.
  change (2 ^ 6) with 64. change (2 ^ 12) with 4096.
  change (2 ^ 18) with 262144.
  destruct (N.ltb_spec ch2 0x90).
  - apply N.eqb_neq in H5. lia.
  - apply N.eqb_neq in H5. lia.
Qed.

(** The view of at most [n] bytes: scalar values, no more of them than
    bytes. *)
Lemma utf8_decode_ignore_sound (n : nat) :
  forall s : bytes,
    (List.length s <= n)%nat ->
    Forall (fun c => is_scalar c = true) (utf8_decode_ignore s)
    /\ (List.length (utf8_decode_ignore s) <= List.length s)%nat.
Proof.
  induction n as [|n IH]; intros s Hn.
  - destruct s; [|cbn in Hn; lia]. split; [constructor|cbn; lia].
  - destruct s as [|b1 r1]; [split; [constructor|cbn; lia]|].
    cbn [List.length] in Hn.
    assert (R1 := IH r1 ltac:(lia)).
    rewrite utf8_decode_ignore_cons. cbv zeta.
    destruct (N.ltb_spec (Byte.to_N b1) 0x80) as [L1|L1].
    { destruct R1 as [F1 G1]. split.
      - constructor; [apply is_scalar_iff; lia|exact F1].
      - cbn [List.length]. lia. }
    destruct (N.ltb_spec (Byte.to_N b1) 0xC2) as [L2|L2].
    { destruct R1 as [F1 G1]. split; [exact F1|cbn [List.length]; lia]. }
    destruct (N.ltb_spec (Byte.to_N b1) 0xE0) as [L3|L3].
    { destruct r1 as [|b2 r2]; [split; [constructor|cbn; lia]|].
      cbn [List.length] in Hn. assert (R2 := IH r2 ltac:(lia)).
      destruct (is_continuation (Byte.to_N b2)) eqn:C2.
      - destruct R2 as [F2 G2]. split.
        + constructor; [apply cp2_scalar; assumption|exact F2].
        + cbn [List.length]. lia.
      - destruct R1 as [F1 G1]. split; [exact F1|cbn [List.length] in *; lia]. }
    destruct (N.ltb_spec (Byte.to_N b1) 0xF0) as [L4|L4].
    { destruct r1 as [|b2 r2]; [split; [constructor|cbn; lia]|].
      cbn [List.length] in Hn. assert (R2 := IH r2 ltac:(lia)).
      destruct (bad_second3 (Byte.to_N b1) (Byte.to_N b2)) eqn:B2.
      { destruct R1 as [F1 G1]. split; [exact F1|cbn [List.length] in *; lia]. }
      destruct r2 as [|b3 r3]; [split; [constructor|cbn; lia]|].
      cbn [List.length] in Hn. assert (R3 := IH r3 ltac:(lia)).
      destruct (is_continuation (Byte.to_N b3)) eqn:C3.
      - destruct R3 as [F3 G3]. split.
        + constructor; [apply cp3_scalar; assumption|exact F3].
        + cbn [List.length]. lia.
      - destruct R2 as [F2 G2]. split; [exact F2|cbn [List.length] in *; lia]. }
    destruct (N.ltb_spec (Byte.to_N b1) 0xF5) as [L5|L5].
    { destruct r1 as [|b2 r2]; [split; [constructor|cbn; lia]|].
      cbn [List.length] in Hn. assert (R2 := IH r2 ltac:(lia)).
      destruct (bad_second4 (Byte.to_N b1) (Byte.to_N b2)) eqn:B2.
      { destruct R1 as [F1 G1]. split; [exact F1|cbn [List.length] in *; lia]. }
      destruct r2 as [|b3 r3]; [split; [constructor|cbn; lia]|].
      cbn [List.length] in Hn. assert (R3 := IH r3 ltac:(lia)).
      destruct (is_continuation (Byte.to_N b3)) eqn:C3; cbn [negb].
      2:{ destruct R2 as [F2 G2]. split; [exact F2|cbn [List.length] in *; lia]. }
      destruct r3 as [|b4 r4]; [split; [constructor|cbn; lia]|].
      cbn [List.length] in Hn. assert (R4 := IH r4 ltac:(lia)).
      destruct (is_continuation (Byte.to_N b4)) eqn:C4.
      - destruct R4 as [F4 G4]. split.
        + constructor; [apply cp4_scalar; assumption|exact F4].
        + cbn [List.length]. lia.
      - destruct R3 as [F3 G3]. split; [exact F3|cbn [List.length] in *; lia]. }
    destruct R1 as [F1 G1]. split; [exact F1|cbn [List.length]; lia].
Qed.

(** X1. Whatever the bytes of the blob, every character of the text view
    is a Unicode scalar value (no surrogate, nothing above U+10FFFF), and
    the text view has no more characters than the blob has bytes. *)
Theorem text_view_scalar_and_short :
  forall blob : bytes,
    Forall (fun c => is_scalar c = true) (utf8_decode_ignore blob)
    /\ (len (utf8_decode_ignore blob) <= len blob)%Z.
Proof.
  intros blob.
  destruct (utf8_decode_ignore_sound (List.length blob) blob (le_n _)) as [F G].
  split; [exact F|]. unfold len. lia.
Qed.

(** X2. The text view of the UTF-8 encoding of a text is that text: on
    well-formed input the lossy decoding loses nothing. *)
Theorem text_view_of_encoding :
  forall s : str,
    forallb is_scalar s = true ->
    utf8_decode_ignore (utf8_encode s) = s.
Proof.
  intros s Hs. rewrite <- (app_nil_r (utf8_encode s)).
  rewrite (decode_encode s [] Hs). cbn [utf8_decode_ignore]. apply app_nil_r.
Qed.

Lemma text_view_of_encoding_witness :
  utf8_decode_ignore (utf8_encode [0x61; 0xE9; 0x20AC; 0x1F600])
  = [0x61; 0xE9; 0x20AC; 0x1F600].
Proof.
  apply (text_view_of_encoding [0x61; 0xE9; 0x20AC; 0x1F600]).
  vm_compute. reflexivity.
Defined.

(** ** Markers that cannot overlap *)

Lemma startswith_app_compatible (a b j : str) :
  startswith (a ++ b) j = true -> compatible a j = true.
Proof.
  unfold compatible. revert j. induction a as [|x a IH]; intros j H.
  - cbn. destruct j; [reflexivity|apply orb_true_r].
  - destruct j as [|y j]; [reflexivity|].
    cbn [app startswith] in H |- *. apply andb_true_iff in H as [H1 H2].
    rewrite H1. apply N.eqb_eq in H1. subst y. rewrite N.eqb_refl.
    cbn [andb]. exact (IH j H2).
Qed.

Lemma startswith_firstn (n : nat) (s t : str) :
  startswith (firstn n s) t = true -> startswith s t = true.
Proof.
  intros H. apply startswith_app in H as [post H].
  apply startswith_app. exists (post ++ skipn n s).
  rewrite <- (firstn_skipn n s) at 1. rewrite H, <- app_assoc. reflexivity.
Qed.

Lemma skipn_firstn_prefix {A} (p q : nat) (s : list A) :
  skipn p (firstn q s) = firstn (q - p) (skipn p s).
Proof. rewrite skipn_firstn_comm. reflexivity. Qed.

Lemma find_nat_at (s t : str) (i : nat) :
  find_nat s t = Some i -> startswith (skipn i s) t = true.
Proof.
  intros F. destruct (find_nat_skipn _ _ _ F) as (post & Hs & _).
  pose proof (find_nat_bound _ _ _ F) as Hb.
  apply startswith_app. exists post.
  rewrite Hs at 1. rewrite skipn_app, length_firstn, Nat.min_l by lia.
  rewrite Nat.sub_diag. cbn [skipn].
  rewrite skipn_all2 by (rewrite length_firstn; lia). reflexivity.
Qed.

Lemma occurs_at_split (s t : str) (p : nat) :
  (p <= List.length s)%nat -> startswith (skipn p s) t = true ->
  exists post, s = firstn p s ++ t ++ post.
Proof.
  intros Hp H. apply startswith_app in H as [post H]. exists post.
  rewrite <- H. symmetry. apply firstn_skipn.
Qed.

Lemma first_pos_le (s t : str) (p : nat) :
  (p <= List.length s)%nat -> startswith (skipn p s) t = true ->
  (first_pos s t <= p)%nat.
Proof.
  intros Hp H. unfold first_pos.
  destruct (occurs_at_split s t p Hp H) as [post Hs].
  destruct (find_nat s t) as [i|] eqn:F.
  - pose proof (find_nat_first _ _ _ F _ _ Hs) as Hi.
    rewrite length_firstn in Hi. lia.
  - exfalso. exact (find_nat_none _ _ F _ _ Hs).
Qed.

Lemma first_pos_bound (s t : str) : (first_pos s t <= List.length s)%nat.
Proof.
  unfold first_pos. destruct (find_nat s t) as [i|] eqn:F; [|lia].
  exact (find_nat_bound _ _ _ F).
Qed.

Lemma earliest_le (tokens : list str) (s t : str) :
  In t tokens -> (earliest tokens s <= first_pos s t)%nat.
Proof.
  induction tokens as [|t0 tokens IH]; [intros []|].
  cbn [earliest fold_right]. fold (earliest tokens s).
  intros [->|H]; [lia|]. specialize (IH H). lia.
Qed.

Lemma earliest_bound (tokens : list str) (s : str) :
  (earliest tokens s <= List.length s)%nat.
Proof.
  induction tokens as [|t0 tokens IH]; cbn [earliest fold_right]; [lia|].
  fold (earliest tokens s). lia.
Qed.

Lemma earliest_attained (tokens : list str) (s : str) :
  earliest tokens s = List.length s
  \/ exists k, In k tokens /\ find_nat s k = Some (earliest tokens s).
Proof.
  induction tokens as [|t0 tokens IH]; cbn [earliest fold_right]; [left; reflexivity|].
  fold (earliest tokens s).
  destruct (Nat.min_spec (first_pos s t0) (earliest tokens s)) as [[Hlt ->]|[Hle ->]].
  - unfold first_pos in *. destruct (find_nat s t0) as [i|] eqn:F.
    + right. exists t0. split; [left; reflexivity|exact F].
    + left. reflexivity.
  - destruct IH as [IH|(k & Hk & F)]; [left; exact IH|].
    right. exists k. split; [right; exact Hk|exact F].
Qed.

(** The loop, cut by cut: the chunk stays a prefix of [s] that ends at or
    behind the earliest marker, at the end of [s] or where a token
    occurs. *)
Lemma fold_cut_at_position (all tokens : list str) (s : str) (q : nat) :
  incl tokens all ->
  (earliest all s <= q <= List.length s)%nat ->
  (q = List.length s
   \/ exists j, In j all /\ startswith (skipn q s) j = true) ->
  exists q',
    fold_left cut_at tokens (firstn q s) = firstn q' s
    /\ (earliest all s <= q' <= List.length s)%nat
    /\ (q' = List.length s
        \/ exists j, In j all /\ startswith (skipn q' s) j = true).
Proof.
  revert q. induction tokens as [|t tokens IH]; intros q Hincl Hq Hocc.
  - exists q. cbn [fold_left]. auto.
  - cbn [fold_left].
    assert (Ht : In t all) by (apply Hincl; left; reflexivity).
    assert (Hincl' : incl tokens all)
      by (intros x Hx; apply Hincl; right; exact Hx).
    destruct (find_nat (firstn q s) t) as [p|] eqn:F.
    + rewrite (cut_at_found _ _ _ F).
      pose proof (find_nat_bound _ _ _ F) as Hb.
      rewrite length_firstn in Hb.
      pose proof (find_nat_at _ _ _ F) as Hat.
      rewrite skipn_firstn_prefix in Hat. apply startswith_firstn in Hat.
      rewrite firstn_firstn. replace (Nat.min p q) with p by lia.
      apply IH; [exact Hincl'| |right; exists t; auto].
      pose proof (first_pos_le s t p ltac:(lia) Hat).
      pose proof (earliest_le all s t Ht). lia.
    + rewrite (cut_at_absent _ _ F). exact (IH q Hincl' Hq Hocc).
Qed.

Lemma overlap_free_spec (tokens : list str) (k j : str) (d : nat) :
  overlap_free tokens = true -> In k tokens -> In j tokens ->
  (0 < d < List.length k)%nat -> compatible (skipn d k) j = false.
Proof.
  unfold overlap_free. intros H Hk Hj Hd.
  rewrite forallb_forall in H. specialize (H k Hk).
  rewrite forallb_forall in H. specialize (H j Hj).
  rewrite forallb_forall in H. specialize (H d).
  apply negb_true_iff. apply H. apply in_seq. lia.
Qed.

(** The loop over tokens that cannot overlap cuts at the earliest one. *)
Lemma fold_cut_at_earliest (tokens : list str) (s : str) :
  overlap_free tokens = true ->
  Forall (fun t => t <> []) tokens ->
  fold_left cut_at tokens s = firstn (earliest tokens s) s.
Proof.
  intros Hfree Hne.
  destruct (fold_cut_at_position tokens tokens s (List.length s))
    as (q & Hfold & Hq & Hocc).
  { apply incl_refl. }
  { pose proof (earliest_bound tokens s). lia. }
  { left. reflexivity. }
  rewrite firstn_all in Hfold. rewrite Hfold.
  destruct (Nat.eq_dec q (earliest tokens s)) as [->|Hneq]; [reflexivity|].
  exfalso.
  destruct (earliest_attained tokens s) as [He|(k & Hk & F)]; [lia|].
  set (m := earliest tokens s) in *.
  assert (Hkne : k <> []) by (rewrite Forall_forall in Hne; exact (Hne k Hk)).
  destruct (find_nat_skipn _ _ _ F) as (post & Hs & _).
  pose proof (find_nat_bound _ _ _ F) as Hm.
  assert (Hlen : List.length s = (m + List.length k + List.length post)%nat).
  { rewrite Hs at 1. rewrite !length_app, length_firstn. lia. }
  (* the result holds no occurrence of k *)
  pose proof (fold_cut_at_removes tokens s k Hk Hkne) as Hfreek.
  rewrite Hfold in Hfreek.
  assert (Hqk : (q < m + List.length k)%nat).
  { destruct (Nat.lt_ge_cases q (m + List.length k)) as [H|H]; [exact H|].
    exfalso.
    assert (contains k (firstn q s) = true).
    { apply contains_true_iff. exists (firstn m s), (firstn (q - m - List.length k) post).
      rewrite Hs at 1. rewrite firstn_app, length_firstn, Nat.min_l by lia.
      rewrite firstn_firstn, Nat.min_r by lia. f_equal.
      rewrite firstn_app. rewrite firstn_all2 by lia. reflexivity. }
    congruence. }
  destruct Hocc as [Hocc|(j & Hj & Hat)].
  { destruct k; [congruence|]. cbn [List.length] in *. lia. }
  assert (Hcomp : compatible (skipn (q - m) k) j = true).
  { apply (startswith_app_compatible _ post).
    rewrite Hs in Hat. rewrite skipn_app, length_firstn, Nat.min_l in Hat by lia.
    rewrite skipn_all2 in Hat by (rewrite length_firstn; lia).
    cbn [app] in Hat. rewrite skipn_app in Hat.
    replace (q - m - List.length k)%nat with O in Hat by lia.
    cbn [skipn] in Hat. exact Hat. }
  rewrite (overlap_free_spec tokens k j (q - m) Hfree Hk Hj) in Hcomp by lia.
  discriminate Hcomp.
Qed.

(** X9. The loop over the markers cuts the chunk at the earliest position
    at which any of the six markers occurs, and leaves it whole when none
    occurs: for these markers, cutting one after the other equals one cut
    at the first marker found. *)
Theorem cut_markers_at_earliest :
  forall chunk : str,
    cut_markers chunk = firstn (earliest cutoffs chunk) chunk
    /\ (forall t, In t cutoffs ->
          (earliest cutoffs chunk <= first_pos chunk t)%nat)
    /\ (earliest cutoffs chunk = List.length chunk
        \/ exists k, In k cutoffs
                     /\ find_nat chunk k = Some (earliest cutoffs chunk)).
Proof.
  intros chunk. split; [|split].
  - apply fold_cut_at_earliest.
    + vm_compute. reflexivity.
    + repeat constructor; discriminate.
  - intros t Ht. apply earliest_le. exact Ht.
  - apply earliest_attained.
Qed.

(** ** A message in its frame *)

Lemma find_nat_char (pre post : str) (c : char) :
  contains [c] pre = false ->
  find_nat (pre ++ c :: post) [c] = Some (List.length pre).
Proof.
  induction pre as [|x pre IH]; intros H.
  - cbn [app]. rewrite find_nat_unfold. cbn [startswith].
    rewrite N.eqb_refl. reflexivity.
  - cbn [app]. rewrite find_nat_unfold. cbn [startswith].
    unfold contains in H. rewrite find_nat_unfold in H. cbn [startswith] in H.
    destruct (c =? x); cbn [andb] in H |- *; [discriminate H|].
    destruct (find_nat pre [c]) as [i|] eqn:F; [discriminate H|].
    rewrite IH; [reflexivity|]. unfold contains. rewrite F. reflexivity.
Qed.

Lemma earliest_framed (tokens : list str) (payload marker rest : str) :
  overlap_free tokens = true ->
  Forall (fun t => t <> []) tokens ->
  In marker tokens ->
  forallb (fun t => negb (contains t payload)) tokens = true ->
  earliest tokens (payload ++ marker ++ rest) = List.length payload.
Proof.
  intros Hfree Hne Hmk Hclean.
  set (s := payload ++ marker ++ rest).
  assert (Hat : startswith (skipn (List.length payload) s) marker = true).
  { unfold s. rewrite skipn_app, skipn_all, Nat.sub_diag. cbn [skipn app].
    apply startswith_app. eauto. }
  assert (Hls : (List.length payload <= List.length s)%nat)
    by (unfold s; rewrite length_app; lia).
  pose proof (first_pos_le s marker _ Hls Hat) as Hle.
  pose proof (earliest_le tokens s marker Hmk) as Hle'.
  destruct (Nat.eq_dec (earliest tokens s) (List.length payload)) as [E|E];
    [exact E|exfalso].
  destruct (earliest_attained tokens s) as [He|(k & Hk & F)]; [lia|].
  set (m := earliest tokens s) in *.
  assert (Hkne : k <> []) by (rewrite Forall_forall in Hne; exact (Hne k Hk)).
  rewrite forallb_forall in Hclean. pose proof (Hclean k Hk) as Hck.
  apply negb_true_iff in Hck.
  pose proof (find_nat_at _ _ _ F) as Hkat.
  destruct (Nat.le_gt_cases (m + List.length k) (List.length payload)) as [Hin|Hout].
  - (* the occurrence lies within the payload *)
    assert (contains k payload = true); [|congruence].
    apply contains_true_iff.
    unfold s in Hkat. rewrite skipn_app in Hkat.
    replace (m - List.length payload)%nat with O in Hkat by lia.
    cbn [skipn] in Hkat.
    apply startswith_app in Hkat as [post Hpost].
    exists (firstn m payload), (firstn (List.length payload - m - List.length k) post).
    rewrite <- (firstn_skipn m payload) at 1. f_equal.
    assert (Hsk : skipn m payload
                  = firstn (List.length payload - m) (k ++ post)).
    { rewrite <- Hpost. rewrite firstn_app, length_skipn.
      rewrite firstn_all2 by (rewrite length_skipn; lia).
      replace (List.length payload - m - (List.length payload - m))%nat with O by lia.
      cbn [firstn]. rewrite app_nil_r. reflexivity. }
    rewrite Hsk, firstn_app. rewrite firstn_all2 by lia. reflexivity.
  - (* the occurrence runs into the marker *)
    assert (Hcomp : compatible (skipn (List.length payload - m) k) marker = true).
    { destruct (find_nat_skipn _ _ _ F) as (post & Hs & _).
      pose proof (find_nat_bound _ _ _ F) as Hm.
      apply (startswith_app_compatible _ post).
      rewrite Hs in Hat.
      rewrite skipn_app, length_firstn, Nat.min_l in Hat by lia.
      rewrite skipn_all2 in Hat by (rewrite length_firstn; lia).
      cbn [app] in Hat. rewrite skipn_app in Hat.
      replace (List.length payload - m - List.length k)%nat with O in Hat by lia.
      cbn [skipn] in Hat. exact Hat. }
    rewrite (overlap_free_spec tokens k marker _ Hfree Hk Hmk) in Hcomp by lia.
    discriminate Hcomp.
Qed.

Lemma skip_length_prefix_header (h body : str) :
  length_prefix h = true -> body <> [] ->
  skip_length_prefix (h ++ body) = Ok body.
Proof.
  intros Hh Hb. unfold skip_length_prefix.
  destruct h as [|c [|a [|b [|d h]]]]; try discriminate Hh.
  - cbn [length_prefix] in Hh. cbn [app truthy]. rewrite index_0_cons.
    assert ((c =? 0x81) = false) by (apply N.eqb_neq; apply N.ltb_lt in Hh; lia).
    rewrite H, Hh. rewrite slice_from_skipn by lia. reflexivity.
  - cbn [length_prefix] in Hh. cbn [app truthy]. rewrite index_0_cons, Hh.
    destruct body as [|x body]; [congruence|].
    replace (3 <? len (c :: a :: b :: x :: body))%Z with true
      by (symmetry; apply Z.ltb_lt; unfold len; cbn [List.length]; lia).
    rewrite slice_from_skipn by lia. reflexivity.
Qed.

Lemma drop_artifact_plain ucd (chunk : str) :
  artifact_shaped ucd chunk = false -> drop_artifact ucd chunk = Ok chunk.
Proof.
  intros H. unfold drop_artifact.
  destruct (2 <? len chunk)%Z eqn:L; [|reflexivity].
  destruct chunk as [|c0 [|c1 [|c2 rest]]]; try discriminate L.
  rewrite index_0_cons, index_1_cons. cbn [artifact_shaped] in H.
  destruct (islower ucd c0); [|reflexivity].
  cbn [andb] in H. rewrite H. reflexivity.
Qed.

(** X10. A message is recovered as it is when the text view is: some text
    without [+], a [+], a length prefix (one character below 128, or 0x81
    and two more), the message, a marker, anything; provided that prefix,
    message and marker fit in 999 characters, and that the message holds
    no marker, is longer than 3 characters, has no white space at either
    end and does not begin like an artifact. *)
Theorem framed_message_recovered :
  forall (ucd : unicode_db) (g : py_env) (blob : bytes)
         (pre header payload marker rest : str),
    utf8_decode_ignore blob
    = pre ++ lit "+" ++ header ++ payload ++ marker ++ rest ->
    contains (lit "+") pre = false ->
    length_prefix header = true ->
    In marker cutoffs ->
    forallb (fun t => negb (contains t payload)) cutoffs = true ->
    (len header + len payload + len marker <= 999)%Z ->
    (3 < len payload)%Z ->
    starts_nonspace payload = true ->
    starts_nonspace (rev payload) = true ->
    artifact_shaped ucd payload = false ->
    decoded ucd (Some blob) g = Ok payload.
Proof.
  intros ucd g blob pre header payload marker rest
         Hview Hpre Hh Hmk Hclean Hlen Hp3 Hs1 Hs2 Hart.
  assert (Hm : method1 ucd (utf8_decode_ignore blob) = Ok (Some payload)).
  { rewrite Hview. unfold method1, contains, modern_chunk, find.
    change (lit "+") with [0x2B] in *. cbn [app].
    rewrite (find_nat_char pre _ 0x2B Hpre). cbv beta iota zeta.
    rewrite slice_firstn_skipn by lia.
    replace (Z.to_nat (Z.of_nat (List.length pre) + 1000
                       - (Z.of_nat (List.length pre) + 1))) with 999%nat by lia.
    replace (Z.to_nat (Z.of_nat (List.length pre) + 1))
      with (1 + List.length pre)%nat by lia.
    rewrite <- skipn_skipn. rewrite skipn_app, skipn_all, Nat.sub_diag.
    cbn [skipn app].
    set (body := payload ++ marker ++ firstn (999 - List.length header
                   - List.length payload - List.length marker) rest).
    assert (Hraw : firstn 999 (header ++ payload ++ marker ++ rest)
                   = header ++ body).
    { unfold body, len in *. rewrite firstn_app.
      rewrite firstn_all2 by lia. f_equal.
      rewrite firstn_app. rewrite firstn_all2 by lia. f_equal.
      rewrite firstn_app. rewrite firstn_all2 by lia. reflexivity. }
    rewrite Hraw.
    assert (Hbody : body <> []).
    { unfold body. destruct payload; [discriminate Hp3|discriminate]. }
    rewrite (skip_length_prefix_header header body Hh Hbody).
    assert (Hcut : cut_markers body = payload).
    { unfold cut_markers. rewrite fold_cut_at_earliest;
        [|vm_compute; reflexivity|repeat constructor; discriminate].
      unfold body. rewrite earliest_framed;
        [|vm_compute; reflexivity|repeat constructor; discriminate
         |exact Hmk|exact Hclean].
      rewrite firstn_app, Nat.sub_diag, firstn_all. cbn [firstn].
      apply app_nil_r. }
    rewrite Hcut, (drop_artifact_plain ucd payload Hart).
    rewrite (strip_id payload Hs1 Hs2).
    apply Z.ltb_lt in Hp3. rewrite Hp3. reflexivity. }
  unfold decoded. rewrite (decode_modern ucd g blob payload Hm). reflexivity.
Qed.

Lemma framed_message_recovered_witness :
  decoded sample_ucd (Some sample_framed_blob) env0 = Ok (lit "Hi there").
Proof.
  apply (framed_message_recovered sample_ucd env0 sample_framed_blob
           (lit "junk") [0x05] (lit "Hi there") (lit "NSNumber") (lit "tail")).
  - vm_compute. reflexivity.
  - vm_compute. reflexivity.
  - vm_compute. reflexivity.
  - right. left. reflexivity.
  - vm_compute. reflexivity.
  - vm_compute. discriminate.
  - vm_compute. reflexivity.
  - vm_compute. reflexivity.
  - vm_compute. reflexivity.
  - vm_compute. reflexivity.
Defined.

(** ** get_messages and the text output *)

Lemma row_content_run ucd (r : row) (g : py_env) :
  exists g', row_content ucd r g = (Ok (content_of ucd r), g').
Proof.
  unfold row_content, content_of.
  destruct (row_text r) as [[|c t]|].
  - destruct (row_attr_body r) as [[|x b]|];
      try (eexists; reflexivity).
    rewrite decode_run by discriminate. eexists. reflexivity.
  - eexists. reflexivity.
  - destruct (row_attr_body r) as [[|x b]|];
      try (eexists; reflexivity).
    rewrite decode_run by discriminate. eexists. reflexivity.
Qed.

Lemma collect_run ucd uni_lower (search : option str) (rows : list row) :
  forall (results : list message) (g : py_env),
  exists g',
    collect ucd uni_lower search rows results g
    = (Ok (results
           ++ List.map (message_of ucd)
                (filter (kept ucd uni_lower search) rows)), g').
Proof.
  induction rows as [|r rows IH]; intros results g; cbn [collect].
  - exists g. cbn [filter List.map]. rewrite app_nil_r. reflexivity.
  - unfold bind. destruct (row_content_run ucd r g) as [g1 ->].
    cbn [filter]. unfold kept at 1.
    destruct (truthy (content_of ucd r)); cbn [negb andb].
    + destruct (search_misses uni_lower search (content_of ucd r));
        cbn [negb].
      * apply IH.
      * fold (message_of ucd r).
        destruct (IH (results ++ [message_of ucd r]) g1) as [g' ->].
        exists g'. cbn [List.map]. rewrite <- app_assoc. reflexivity.
    + apply IH.
Qed.

Lemma get_messages_run ucd uni_lower (real : Type) (nst : Z -> real)
      (failure connection : Type)
      (connect : string -> failure + connection)
      (threshold_raises : Z -> option failure)
      (execute : connection -> str -> list (sql_param real)
                 -> failure + cursor failure)
      (close : connection -> option failure)
      (contact search : option str) (days limit : Z) (g : py_env) :
  exists g',
    get_messages ucd uni_lower real nst failure connection connect
      threshold_raises execute close contact search days limit g
    = (match rows_of nst connect threshold_raises execute close
               (DB_PATH g) contact days limit with
       | inl f => LibraryRaises f
       | inr rows =>
         Returns (List.map (message_of ucd)
                    (filter (kept ucd uni_lower search) rows))
       end, g').
Proof.
  unfold get_messages, rows_of.
  destruct (connect (DB_PATH g)) as [f|conn]; [exists g; reflexivity|].
  destruct (threshold_raises days) as [f|]; [exists g; reflexivity|].
  destruct (build_query real nst contact days limit) as [query params].
  cbn [fst snd].
  destruct (execute conn query params) as [f|cur]; [exists g; reflexivity|].
  destruct (collect_run ucd uni_lower search (cursor_rows cur) [] g)
    as [g' ->].
  cbn [app].
  destruct (cursor_fails cur) as [f|]; [exists g'; reflexivity|].
  destruct (close conn) as [f|]; exists g'; reflexivity.
Qed.

Lemma placeholders_app (a b : str) :
  placeholders (a ++ b) = (placeholders a + placeholders b)%nat.
Proof. unfold placeholders. rewrite filter_app, length_app. reflexivity. Qed.

(** X14. The query has exactly one [?] for each parameter, with or
    without a contact, and its text is one of two fixed texts: the
    contact reaches the database as a parameter only, never as part of
    the SQL text. *)
Theorem query_placeholders_match_parameters :
  forall (real : Type) (nst : Z -> real)
         (contact : option str) (days limit : Z),
    placeholders (fst (build_query real nst contact days limit))
    = List.length (snd (build_query real nst contact days limit))
    /\ (fst (build_query real nst contact days limit)
        = BASE_QUERY ++ lit " ORDER BY m.date DESC LIMIT ?"
        \/ fst (build_query real nst contact days limit)
           = (BASE_QUERY ++ lit " AND h.id LIKE ?")
               ++ lit " ORDER BY m.date DESC LIMIT ?").
Proof.
  intros real nst contact days limit. unfold build_query.
  destruct contact as [[|c t]|]; cbn [fst snd]; split;
    try (left; reflexivity); try (right; reflexivity);
    rewrite ?placeholders_app; vm_compute; reflexivity.
Qed.

(** X15. How a call of [get_messages] ends is settled by the library
    calls in their order: where [sqlite3.connect], the date arithmetic,
    [conn.execute], the cursor or [conn.close] raises, the call raises
    that exception, the first of them; it raises nothing of its own.
    Where none of them raises it returns, in the order of the rows, one
    message for each row that has a content and passes the search; the
    content is the text column when that is not empty, and the decoded
    attributedBody otherwise. *)
Theorem get_messages_rows :
  forall (ucd : unicode_db) (uni_lower : str -> str) (real : Type)
         (nst : Z -> real) (failure connection : Type)
         (connect : string -> failure + connection)
         (threshold_raises : Z -> option failure)
         (execute : connection -> str -> list (sql_param real)
                    -> failure + cursor failure)
         (close : connection -> option failure)
         (contact search : option str) (days limit : Z) (g : py_env),
    fst (get_messages ucd uni_lower real nst failure connection connect
           threshold_raises execute close contact search days limit g)
    = match connect (DB_PATH g) with
      | inl f => LibraryRaises f
      | inr conn =>
        match threshold_raises days with
        | Some f => LibraryRaises f
        | None =>
          match execute conn
                  (fst (build_query real nst contact days limit))
                  (snd (build_query real nst contact days limit)) with
          | inl f => LibraryRaises f
          | inr cur =>
            match cursor_fails cur with
            | Some f => LibraryRaises f
            | None =>
              match close conn with
              | Some f => LibraryRaises f
              | None =>
                Returns (List.map (message_of ucd)
                           (filter (kept ucd uni_lower search)
                              (cursor_rows cur)))
              end
            end
          end
        end
      end.
Proof.
  intros.
  destruct (get_messages_run ucd uni_lower real nst failure connection
              connect threshold_raises execute close contact search
              days limit g) as [g' ->].
  cbn [fst]. unfold rows_of.
  destruct (connect (DB_PATH g)) as [f|conn]; [reflexivity|].
  destruct (threshold_raises days) as [f|]; [reflexivity|].
  destruct (execute conn _ _) as [f|cur]; [reflexivity|].
  destruct (cursor_fails cur) as [f|]; [reflexivity|].
  destruct (close conn) as [f|]; reflexivity.
Qed.

Lemma get_messages_rows_witness :
  fst (get_messages sample_ucd (fun s => s) Z sample_threshold
         sample_failure unit sample_connect sample_threshold_raises
         sample_execute sample_close None None 30 50 env0)
  = Returns [mk_message (Some (lit "2024-05-01 10:00:00"))
               (Some (lit "+15550100")) (Some (lit "iMessage")) true
               (lit "Hello there");
             mk_message (Some (lit "2024-05-01 09:00:00"))
               (Some (lit "+15550100")) (Some (lit "RCS")) false
               (lit "Hi there");
             mk_message (Some (lit "2024-05-01 08:00:00"))
               (Some (lit "+15550101")) (Some (lit "SMS")) false
               (lit " ")]
  /\ fst (get_messages sample_ucd (fun s => s) Z sample_threshold
            sample_failure unit sample_connect sample_threshold_raises
            sample_execute sample_close None None 10000000 50 env0)
     = LibraryRaises OverflowError.
Proof.
  split.
  - rewrite (get_messages_rows sample_ucd (fun s => s) Z sample_threshold
               sample_failure unit sample_connect sample_threshold_raises
               sample_execute sample_close None None 30 50 env0).
    vm_compute. reflexivity.
  - rewrite (get_messages_rows sample_ucd (fun s => s) Z sample_threshold
               sample_failure unit sample_connect sample_threshold_raises
               sample_execute sample_close None None 10000000 50 env0).
    vm_compute. reflexivity.
Defined.

Lemma returned_messages ucd uni_lower (real : Type) (nst : Z -> real)
      (failure connection : Type)
      (connect : string -> failure + connection)
      (threshold_raises : Z -> option failure)
      (execute : connection -> str -> list (sql_param real)
                 -> failure + cursor failure)
      (close : connection -> option failure)
      (contact search : option str) (days limit : Z) (g : py_env)
      (results : list message) :
  fst (get_messages ucd uni_lower real nst failure connection connect
         threshold_raises execute close contact search days limit g)
  = Returns results ->
  exists rows : list row,
    rows_of nst connect threshold_raises execute close
      (DB_PATH g) contact days limit = inr rows
    /\ results = List.map (message_of ucd)
                   (filter (kept ucd uni_lower search) rows).
Proof.
  destruct (get_messages_run ucd uni_lower real nst failure connection
              connect threshold_raises execute close contact search
              days limit g) as [g' ->].
  cbn [fst].
  destruct (rows_of nst connect threshold_raises execute close
              (DB_PATH g) contact days limit) as [f|rows];
    [discriminate|].
  intros [= <-]. exists rows. split; reflexivity.
Qed.

(** X16. Where a call of [get_messages] returns, every message returned
    has a text that is not empty and that passes the search, and there
    are no more messages than the cursor gave rows. *)
Theorem messages_nonempty_and_matching :
  forall (ucd : unicode_db) (uni_lower : str -> str) (real : Type)
         (nst : Z -> real) (failure connection : Type)
         (connect : string -> failure + connection)
         (threshold_raises : Z -> option failure)
         (execute : connection -> str -> list (sql_param real)
                    -> failure + cursor failure)
         (close : connection -> option failure)
         (contact search : option str) (days limit : Z) (g : py_env)
         (results : list message),
    fst (get_messages ucd uni_lower real nst failure connection connect
           threshold_raises execute close contact search days limit g)
    = Returns results ->
    Forall (fun m => truthy (msg_text m) = true
                     /\ search_misses uni_lower search (msg_text m)
                        = false) results
    /\ exists rows : list row,
         rows_of nst connect threshold_raises execute close
           (DB_PATH g) contact days limit = inr rows
         /\ (List.length results <= List.length rows)%nat.
Proof.
  intros until results. intros H.
  apply returned_messages in H as (rows & Hrows & ->). split.
  - apply Forall_forall. intros m Hm. apply in_map_iff in Hm as (r & <- & Hr).
    apply filter_In in Hr as [_ Hk]. unfold kept in Hk.
    apply andb_true_iff in Hk as [H1 H2]. apply negb_true_iff in H2.
    cbn [msg_text message_of]. auto.
  - exists rows. split; [exact Hrows|].
    rewrite length_map. apply filter_length_le.
Qed.

Lemma messages_nonempty_and_matching_witness :
  fst (get_messages sample_ucd (fun s => s) Z sample_threshold
         sample_failure unit sample_connect sample_threshold_raises
         sample_execute sample_close None (Some (lit "HELLO")) 30 50 env0)
  = Returns [mk_message (Some (lit "2024-05-01 10:00:00"))
               (Some (lit "+15550100")) (Some (lit "iMessage")) true
               (lit "Hello there")]
  /\ Forall (fun m => truthy (msg_text m) = true
                      /\ search_misses (fun s => s) (Some (lit "HELLO"))
                           (msg_text m) = false)
        [mk_message (Some (lit "2024-05-01 10:00:00"))
           (Some (lit "+15550100")) (Some (lit "iMessage")) true
           (lit "Hello there")]
  /\ exists rows : list row,
       rows_of sample_threshold sample_connect sample_threshold_raises
         sample_execute sample_close (DB_PATH env0) None 30 50 = inr rows
       /\ (1 <= List.length rows)%nat.
Proof.
  split; [vm_compute; reflexivity|].
  apply (messages_nonempty_and_matching sample_ucd (fun s => s) Z
           sample_threshold sample_failure unit sample_connect
           sample_threshold_raises sample_execute sample_close
           None (Some (lit "HELLO")) 30 50 env0).
  vm_compute. reflexivity.
Defined.

Lemma filter_map_swap {A B} (f : A -> B) (p : B -> bool) (l : list A) :
  filter p (List.map f l) = List.map f (filter (fun x => p (f x)) l).
Proof.
  induction l as [|x l IH]; [reflexivity|]. cbn [List.map filter].
  destruct (p (f x)); cbn [List.map]; rewrite IH; reflexivity.
Qed.

Lemma filter_filter {A} (p q : A -> bool) (l : list A) :
  filter p (filter q l) = filter (fun x => q x && p x) l.
Proof.
  induction l as [|x l IH]; [reflexivity|]. cbn [filter].
  destruct (q x); cbn [filter andb]; [destruct (p x)|]; rewrite IH; reflexivity.
Qed.

(** X17. A call with a search term ends as the same call without one
    does, on the same database at the same time. Where that call raises,
    it raises the same exception; where that call returns, it returns
    exactly those of its messages whose text holds the term, case
    ignored, in the same order. *)
Theorem search_filters_messages :
  forall (ucd : unicode_db) (uni_lower : str -> str) (real : Type)
         (nst : Z -> real) (failure connection : Type)
         (connect : string -> failure + connection)
         (threshold_raises : Z -> option failure)
         (execute : connection -> str -> list (sql_param real)
                    -> failure + cursor failure)
         (close : connection -> option failure)
         (contact search : option str) (days limit : Z)
         (path : string) (mods mods0 : list string),
    fst (get_messages ucd uni_lower real nst failure connection connect
           threshold_raises execute close contact search days limit
           (mk_env path mods))
    = match fst (get_messages ucd uni_lower real nst failure connection
                   connect threshold_raises execute close contact None
                   days limit (mk_env path mods0)) with
      | Returns everything =>
        Returns (filter (fun m => negb (search_misses uni_lower search
                                          (msg_text m))) everything)
      | Raises e => Raises e
      | LibraryRaises f => LibraryRaises f
      end.
Proof.
  intros.
  destruct (get_messages_run ucd uni_lower real nst failure connection
              connect threshold_raises execute close contact None
              days limit (mk_env path mods0)) as [g1 ->].
  destruct (get_messages_run ucd uni_lower real nst failure connection
              connect threshold_raises execute close contact search
              days limit (mk_env path mods)) as [g2 ->].
  cbn [fst DB_PATH].
  destruct (rows_of nst connect threshold_raises execute close path
              contact days limit) as [f|rows]; [reflexivity|].
  f_equal. rewrite filter_map_swap, filter_filter. f_equal.
  apply filter_ext. intros r. unfold kept. cbn [msg_text message_of].
  cbn [search_misses negb]. rewrite andb_true_r. reflexivity.
Qed.

Lemma search_filters_messages_witness :
  fst (get_messages sample_ucd (fun s => s) Z sample_threshold
         sample_failure unit sample_connect sample_threshold_raises
         sample_execute sample_close None (Some (lit "THERE")) 30 50 env0)
  = Returns [mk_message (Some (lit "2024-05-01 10:00:00"))
               (Some (lit "+15550100")) (Some (lit "iMessage")) true
               (lit "Hello there");
             mk_message (Some (lit "2024-05-01 09:00:00"))
               (Some (lit "+15550100")) (Some (lit "RCS")) false
               (lit "Hi there")]
  /\ fst (get_messages sample_ucd (fun s => s) Z sample_threshold
            sample_failure unit sample_connect sample_threshold_raises
            sample_execute sample_close None (Some (lit "THERE")) 30 50
            (mk_env "/nowhere/chat.db" []))
     = LibraryRaises OperationalError.
Proof.
  split.
  - etransitivity.
    + exact (search_filters_messages sample_ucd (fun s => s) Z
               sample_threshold sample_failure unit sample_connect
               sample_threshold_raises sample_execute sample_close
               None (Some (lit "THERE")) 30 50 (DB_PATH env0) [] []).
    + vm_compute. reflexivity.
  - etransitivity.
    + exact (search_filters_messages sample_ucd (fun s => s) Z
               sample_threshold sample_failure unit sample_connect
               sample_threshold_raises sample_execute sample_close
               None (Some (lit "THERE")) 30 50 "/nowhere/chat.db" [] []).
    + vm_compute. reflexivity.
Defined.

(** X18. For each message a call of [get_messages] returns, the text
    output passes to its second [print] call two spaces and the first
    200 characters of the text, and to its third nothing; the second
    argument is between 3 and 202 characters long, for a returned text
    is not empty. *)
Theorem printed_previews :
  forall (ucd : unicode_db) (uni_lower : str -> str) (real : Type)
         (nst : Z -> real) (failure connection : Type)
         (connect : string -> failure + connection)
         (threshold_raises : Z -> option failure)
         (execute : connection -> str -> list (sql_param real)
                    -> failure + cursor failure)
         (close : connection -> option failure)
         (contact search : option str) (days limit : Z) (g : py_env)
         (results : list message),
    fst (get_messages ucd uni_lower real nst failure connection connect
           threshold_raises execute close contact search days limit g)
    = Returns results ->
    Forall (fun m =>
              exists header : str,
                print_message m
                = [header; lit "  " ++ firstn 200 (msg_text m); empty_str]
                /\ (3 <= len (lit "  " ++ firstn 200 (msg_text m))
                     <= 202)%Z)
           results.
Proof.
  intros until results. intros H.
  apply returned_messages in H as (rows & _ & ->).
  apply Forall_forall. intros m Hm. apply in_map_iff in Hm as (r & <- & Hr).
  apply filter_In in Hr as [_ Hk]. unfold kept in Hk.
  apply andb_true_iff in Hk as [H1 _].
  unfold print_message. cbn [msg_text message_of].
  rewrite (slice_to_firstn _ 200) by lia. change (Z.to_nat 200) with 200%nat.
  eexists. split; [reflexivity|].
  unfold len. rewrite length_app, length_firstn.
  change (List.length (lit "  ")) with 2%nat.
  destruct (content_of ucd r); [discriminate H1|]. cbn [List.length]. lia.
Qed.

Lemma printed_previews_witness :
  fst (get_messages sample_ucd (fun s => s) Z sample_threshold
         sample_failure unit sample_connect sample_threshold_raises
         sample_execute sample_close None (Some (lit "hi")) 30 50 env0)
  = Returns [mk_message (Some (lit "2024-05-01 09:00:00"))
               (Some (lit "+15550100")) (Some (lit "RCS")) false
               (lit "Hi there")]
  /\ print_message
       (mk_message (Some (lit "2024-05-01 09:00:00"))
          (Some (lit "+15550100")) (Some (lit "RCS")) false
          (lit "Hi there"))
     = [lit "2024-05-01 09:00:00 " ++ [0x2190] ++ lit " +15550100 [RCS]";
        lit "  Hi there"; empty_str]
  /\ Forall (fun m =>
               exists header : str,
                 print_message m
                 = [header; lit "  " ++ firstn 200 (msg_text m); empty_str]
                 /\ (3 <= len (lit "  " ++ firstn 200 (msg_text m))
                      <= 202)%Z)
        [mk_message (Some (lit "2024-05-01 09:00:00"))
           (Some (lit "+15550100")) (Some (lit "RCS")) false
           (lit "Hi there")].
Proof.
  split; [vm_compute; reflexivity|]. split; [vm_compute; reflexivity|].
  apply (printed_previews sample_ucd (fun s => s) Z
           sample_threshold sample_failure unit sample_connect
           sample_threshold_raises sample_execute sample_close
           None (Some (lit "hi")) 30 50 env0).
  vm_compute. reflexivity.
Defined.

(** ** voice-command-center *)

Lemma classify_in_registered (uni_lower : str -> str) (command : str)
      (intent : str) :
  _classify_intent uni_lower command = Some intent ->
  In intent registered_intents.
Proof.
  unfold _classify_intent. cbv zeta.
  repeat match goal with
         | |- context [if ?b then _ else _] => destruct b
         end;
    intros [= <-]; cbn; auto 10.
Qed.

(** X19. Building the registry raises no [KeyError] and gives the eight
    intents, in order; and for every command [handle_command] either
    finds no intent and returns the text of line 31, or finds the entry
    of the intent in the registry and returns what its handler returns:
    no lookup in the registry fails. *)
Theorem handle_command_finds_handler :
  forall (uni_lower : str -> str) (world failure : Type)
         (add_task complete_task list_tasks query_calendar create_event
          log_outreach get_streak company_info : handler world failure),
    exists registry : dict (entry (handler world failure)),
      _build_registry world failure add_task complete_task list_tasks
        query_calendar create_event log_outreach get_streak company_info
      = Found registry
      /\ List.map fst registry = registered_intents
      /\ forall (command : str) (w : world),
           (_classify_intent uni_lower command = None
            /\ handle_command uni_lower world failure registry command w
               = (Returned failure NOT_UNDERSTOOD, w))
           \/ exists (intent : str) (e : entry (handler world failure)),
                _classify_intent uni_lower command = Some intent
                /\ dict_get registry intent = Found e
                /\ handle_command uni_lower world failure registry command w
                   = match entry_handler e command w with
                     | (inl result, w') => (Returned failure result, w')
                     | (inr f, w') => (HandlerFailed failure f, w')
                     end.
Proof.
  intros. eexists. split; [vm_compute; reflexivity|].
  split; [vm_compute; reflexivity|].
  intros command w. unfold handle_command.
  destruct (_classify_intent uni_lower command) as [intent|] eqn:E;
    [|left; split; reflexivity].
  right. pose proof (classify_in_registered _ _ _ E) as Hin.
  cbn in Hin.
  repeat (destruct Hin as [<-|Hin];
          [eexists; eexists; split; [reflexivity|];
           split; vm_compute; reflexivity|]).
  destruct Hin.
Qed.

Lemma any_in_app (a b : list str) (s : str) :
  any_in (a ++ b) s = any_in a s || any_in b s.
Proof. unfold any_in. apply existsb_app. Qed.

(** X20. A command is given no intent exactly when its lower-case form
    holds none of the sixteen trigger words; otherwise its intent is one
    of the eight registered ones. *)
Theorem not_understood_iff_no_trigger :
  forall (uni_lower : str -> str) (command : str),
    (_classify_intent uni_lower command = None
     /\ any_in trigger_words (lower uni_lower command) = false)
    \/ (exists intent, _classify_intent uni_lower command = Some intent
                       /\ In intent registered_intents)
       /\ any_in trigger_words (lower uni_lower command) = true.
Proof.
  intros uni_lower command. unfold trigger_words.
  rewrite !any_in_app. unfold _classify_intent. cbv zeta.
  set (t := lower uni_lower command).
  destruct (any_in [lit "task"; lit "todo"; lit "things"] t).
  { right. split; [|reflexivity].
    repeat match goal with
           | |- context [if ?b then _ else _] => destruct b
           end; eexists; split; try reflexivity; cbn; auto 10. }
  destruct (any_in [lit "calendar"; lit "event"; lit "meeting";
                    lit "schedule"] t).
  { right. split; [|reflexivity].
    repeat match goal with
           | |- context [if ?b then _ else _] => destruct b
           end; eexists; split; try reflexivity; cbn; auto 10. }
  destruct (any_in _ t).
  { right. split; [|reflexivity].
    repeat match goal with
           | |- context [if ?b then _ else _] => destruct b
           end; eexists; split; try reflexivity; cbn; auto 10. }
  left. split; reflexivity.
Qed.

Lemma any_in_true (ws : list str) (w s : str) :
  In w ws -> contains w s = true -> any_in ws s = true.
Proof.
  intros Hin Hc. unfold any_in. apply existsb_exists. eauto.
Qed.

(** X21. A command whose lower-case form holds [schedule] and no task
    word is classified as [calendar_create], whatever else it says: the
    word that makes it a calendar command is also one that makes it a
    request to create. *)
Theorem schedule_always_creates :
  forall (uni_lower : str -> str) (command : str),
    any_in [lit "task"; lit "todo"; lit "things"]
           (lower uni_lower command) = false ->
    contains (lit "schedule") (lower uni_lower command) = true ->
    _classify_intent uni_lower command = Some (lit "calendar_create").
Proof.
  intros uni_lower command Htask Hs. unfold _classify_intent. cbv zeta.
  rewrite Htask.
  rewrite (any_in_true [lit "calendar"; lit "event"; lit "meeting";
                        lit "schedule"] (lit "schedule") _
             ltac:(cbn; auto) Hs).
  rewrite (any_in_true [lit "add"; lit "create"; lit "schedule"; lit "book"]
             (lit "schedule") _ ltac:(cbn; auto) Hs).
  reflexivity.
Qed.

Lemma schedule_always_creates_witness :
  _classify_intent (fun s => s) (lit "What is on my schedule")
  = Some (lit "calendar_create").
Proof.
  apply (schedule_always_creates (fun s => s) (lit "What is on my schedule"));
    vm_compute; reflexivity.
Defined.

Lemma weekday_after (today k : Z) :
  (0 <= k < 7)%Z ->
  (1 <= int_or ((7 - weekday today + k) mod 7) 7 <= 7)%Z
  /\ weekday (today + int_or ((7 - weekday today + k) mod 7) 7)%Z = k.
Proof.
  intros Hk. unfold weekday, int_or.
  destruct (Z.eqb_spec ((7 - (today + 6) mod 7 + k) mod 7) 0) as [E|E];
    split; Z.to_euclidean_division_equations; lia.
Qed.

(** X22. When the lower-case text holds neither [today] nor [tomorrow],
    the first weekday word it holds, Monday to Friday, gives a day
    between 1 and 7 days after today that falls on that weekday; on the
    weekday itself it is the same day a week later. *)
Theorem weekday_word_gives_next_such_day :
  forall (uni_lower : str -> str) (strftime_ymd : Z -> str)
         (today : Z) (text : str) (k : nat),
    (k < 5)%nat ->
    forallb (fun w => negb (contains w (lower uni_lower text)))
            ([lit "today"; lit "tomorrow"] ++ firstn k weekday_words) = true ->
    contains (nth k weekday_words []) (lower uni_lower text) = true ->
    exists days_ahead : Z,
      _parse_relative_date uni_lower strftime_ymd today text
      = strftime_ymd (today + days_ahead)%Z
      /\ (1 <= days_ahead <= 7)%Z
      /\ weekday (today + days_ahead)%Z = Z.of_nat k.
Proof.
  intros uni_lower strftime_ymd today text k Hk Hnone Hword.
  unfold _parse_relative_date. cbv zeta.
  set (t := lower uni_lower text) in *.
  cbn [app forallb] in Hnone.
  apply andb_true_iff in Hnone as [H1 Hnone]. apply negb_true_iff in H1.
  apply andb_true_iff in Hnone as [H2 Hnone]. apply negb_true_iff in H2.
  rewrite H1, H2.
  destruct k as [|[|[|[|[|k]]]]]; [| | | | |lia];
    cbn [firstn weekday_words forallb nth] in Hnone, Hword;
    repeat match type of Hnone with
           | (negb _ && _) = true =>
               let H := fresh "N" in
               apply andb_true_iff in Hnone as [H Hnone];
               apply negb_true_iff in H; rewrite H
           end;
    rewrite Hword; eexists; (split; [reflexivity|]).
  - replace (7 - weekday today)%Z with (7 - weekday today + 0)%Z by lia.
    apply (weekday_after today 0). lia.
  - apply (weekday_after today 1). lia.
  - apply (weekday_after today 2). lia.
  - apply (weekday_after today 3). lia.
  - apply (weekday_after today 4). lia.
Qed.

Lemma weekday_word_gives_next_such_day_witness :
  exists days_ahead : Z,
    _parse_relative_date (fun s => s) (fun d => [Z.to_N d]) 739558
      (lit "Book lunch on Friday") = [Z.to_N (739558 + days_ahead)%Z]
    /\ (1 <= days_ahead <= 7)%Z
    /\ weekday (739558 + days_ahead)%Z = Z.of_nat 4.
Proof.
  apply (weekday_word_gives_next_such_day (fun s => s)
           (fun d => [Z.to_N d]) 739558 (lit "Book lunch on Friday") 4).
  - lia.
  - vm_compute. reflexivity.
  - vm_compute. reflexivity.
Defined.

(** * The text view and the chunk of Method 1, in full *)

(** ** C5: invalid sequences leave nothing in the text view *)

















(** ** C7: the acceptance threshold of Method 1 *)

(** [s.strip()] takes white space, and nothing else, off both ends. *)
Lemma strip_spec (s : str) :
  exists lead trail : str,
    s = lead ++ strip s ++ trail
    /\ forallb isspace lead = true
    /\ forallb isspace trail = true.
Proof.
  unfold strip.
  destruct (dropwhile_suffix isspace s) as (w1 & H1 & F1).
  destruct (dropwhile_suffix isspace (rev (dropwhile isspace s)))
    as (w2 & H2 & F2).
  set (t := dropwhile isspace s) in *.
  set (u := dropwhile isspace (rev t)) in *.
  exists w1, (rev w2). split; [|split].
  - rewrite H1 at 1. f_equal.
    rewrite <- (rev_involutive t), H2, rev_app_distr. reflexivity.
  - exact F1.
  - rewrite forallb_forall in *. intros x Hx. apply F2.
    apply in_rev. exact Hx.
Qed.

(** C7. For a text view with a [+], Method 1 weighs one candidate: the
    run after the [+], less its length prefix, cut at the markers, less
    the type artifact, and then trimmed, that is with the white space at
    both its ends taken off and nothing else. It returns the trimmed
    chunk when the length of the trimmed chunk is above 3 and yields
    nothing otherwise. In the first case the decoder returns the
    chunk; in the second it goes on to Method 2 and returns what that
    finds, or the empty string. *)
Theorem modern_acceptance_threshold :
  forall (ucd : unicode_db) (g : py_env) (blob : bytes),
    contains (lit "+") (utf8_decode_ignore blob) = true ->
    let text := utf8_decode_ignore blob in
    let idx := find text (lit "+") in
    let raw := slice text (idx + 1) (idx + 1000) in
    exists payload untrimmed lead chunk trail : str,
      skip_length_prefix raw = Ok payload
      /\ drop_artifact ucd (cut_markers payload) = Ok untrimmed
      /\ untrimmed = lead ++ chunk ++ trail
      /\ forallb isspace lead = true
      /\ forallb isspace trail = true
      /\ starts_nonspace chunk = true
      /\ starts_nonspace (rev chunk) = true
      /\ modern_chunk ucd text = Ok chunk
      /\ method1 ucd text
         = Ok (if (3 <? len chunk)%Z then Some chunk else None)
      /\ decode_attributed_body ucd (Some blob) g
         = if (3 <? len chunk)%Z then (Ok chunk, g)
           else legacy_then_empty ucd text g.
Proof.
  intros ucd g blob Hplus text idx raw.
  destruct (skip_length_prefix_ok raw) as [payload Hp].
  destruct (drop_artifact_ok ucd (cut_markers payload)) as [untrimmed Hu].
  destruct (strip_spec untrimmed) as (lead & trail & Hs & Hl & Ht).
  destruct (strip_trimmed untrimmed) as [Hh He].
  assert (Hc : modern_chunk ucd text = Ok (strip untrimmed)).
  { unfold modern_chunk. fold idx. fold raw. rewrite Hp.
    cbv beta iota. rewrite Hu. reflexivity. }
  assert (Hm : method1 ucd text
               = Ok (if (3 <? len (strip untrimmed))%Z
                     then Some (strip untrimmed) else None)).
  { unfold method1. fold text in Hplus. rewrite Hplus, Hc.
    cbv beta iota. destruct (3 <? len (strip untrimmed))%Z; reflexivity. }
  exists payload, untrimmed, lead, (strip untrimmed), trail.
  repeat (split; [assumption|]).
  rewrite decode_run
    by (apply (view_contains_blob_nonempty (lit "+"));
        [discriminate|exact Hplus]).
  fold text. unfold body_text, env_after_body. rewrite Hm.
  destruct (3 <? len (strip untrimmed))%Z; [reflexivity|].
  rewrite legacy_then_empty_run. reflexivity.
Qed.

Lemma modern_acceptance_threshold_witness :
  (contains (lit "+") (utf8_decode_ignore sample_padded_short_blob) = true
   /\ decoded sample_ucd (Some sample_padded_short_blob) env0 = Ok empty_str
   /\ let text := utf8_decode_ignore sample_padded_short_blob in
      let idx := find text (lit "+") in
      let raw := slice text (idx + 1) (idx + 1000) in
      exists payload untrimmed lead chunk trail : str,
        skip_length_prefix raw = Ok payload
        /\ drop_artifact sample_ucd (cut_markers payload) = Ok untrimmed
        /\ untrimmed = lead ++ chunk ++ trail
        /\ forallb isspace lead = true
        /\ forallb isspace trail = true
        /\ starts_nonspace chunk = true
        /\ starts_nonspace (rev chunk) = true
        /\ modern_chunk sample_ucd text = Ok chunk
        /\ method1 sample_ucd text
           = Ok (if (3 <? len chunk)%Z then Some chunk else None)
        /\ decode_attributed_body sample_ucd
             (Some sample_padded_short_blob) env0
           = if (3 <? len chunk)%Z then (Ok chunk, env0)
             else legacy_then_empty sample_ucd text env0)
  /\ (contains (lit "+") (utf8_decode_ignore sample_padded_long_blob) = true
      /\ decoded sample_ucd (Some sample_padded_long_blob) env0
         = Ok (lit "Hello")
      /\ let text := utf8_decode_ignore sample_padded_long_blob in
         let idx := find text (lit "+") in
         let raw := slice text (idx + 1) (idx + 1000) in
         exists payload untrimmed lead chunk trail : str,
           skip_length_prefix raw = Ok payload
           /\ drop_artifact sample_ucd (cut_markers payload) = Ok untrimmed
           /\ untrimmed = lead ++ chunk ++ trail
           /\ forallb isspace lead = true
           /\ forallb isspace trail = true
           /\ starts_nonspace chunk = true
           /\ starts_nonspace (rev chunk) = true
           /\ modern_chunk sample_ucd text = Ok chunk
           /\ method1 sample_ucd text
              = Ok (if (3 <? len chunk)%Z then Some chunk else None)
           /\ decode_attributed_body sample_ucd
                (Some sample_padded_long_blob) env0
              = if (3 <? len chunk)%Z then (Ok chunk, env0)
                else legacy_then_empty sample_ucd text env0).
Proof.
  split; (split; [vm_compute; reflexivity|]);
    (split; [vm_compute; reflexivity|]).
  - apply (modern_acceptance_threshold sample_ucd env0
             sample_padded_short_blob).
    vm_compute. reflexivity.
  - apply (modern_acceptance_threshold sample_ucd env0
             sample_padded_long_blob).
    vm_compute. reflexivity.
Defined.
